(** * RWAP: Asset Valuation and Analysis Dashboard ([app.py])

    A shallow embedding of the dashboard script and of the pandas and
    Streamlit operations it calls, followed by the properties of the
    loader, the KPIs, the map subset and the state ranking.

    Conventions of the embedding.
    - A cell of a column is an [option]: [None] is pandas' NaN / missing
      cell, [Some v] a present value.
    - Dollar amounts are whole numbers ([Z]) and their sums are exact.
      pandas holds the column as int64, or as float64 when a cell is
      missing, so its sums are the exact ones as long as no int64 addition
      wraps around and no float64 addition rounds: the tables for which
      this is so are the [exactly_summable] ones, and the properties of
      the sums are stated of them.  Coordinates are rationals.
    - A file on disk is kept as the rows [pd.read_csv] parses from it;
      malformed files are outside the model, the only exception that
      [pd.read_csv] raises here is [FileNotFoundError]. *)

From Stdlib Require Import ZArith String Ascii.
From Stdlib Require QArith.
From stdpp Require Import base tactics option list sorting strings pretty gmap.

Local Open Scope string_scope.
Local Open Scope list_scope.
Local Open Scope Z_scope.

(** ** The asset table *)

Abbreviation Q := QArith_base.Q.

(** One record of [cleaned_asset_valuation.csv]; the fields are the
    columns the script reads. *)
Record row := Row {
  Real_Property_Asset_Name : string;
  State : option string;
  Latitude : option Q;
  Longitude : option Q;
  Estimated_Asset_Value_USD : option Z;
  Missing_Valuation : option bool;
}.

(** The columns that [dropna(subset=...)] can name. *)
Inductive column :=
| col_State
| col_Latitude
| col_Longitude
| col_Estimated_Asset_Value_USD
| col_Missing_Valuation.

(** [pd.isna] of a cell, and of the cell of row [r] in column [c]. *)
Definition cell_isna {A} (cell : option A) : bool :=
  match cell with None => true | Some _ => false end.

Definition isna (c : column) (r : row) : bool :=
  match c with
  | col_State => cell_isna (State r)
  | col_Latitude => cell_isna (Latitude r)
  | col_Longitude => cell_isna (Longitude r)
  | col_Estimated_Asset_Value_USD => cell_isna (Estimated_Asset_Value_USD r)
  | col_Missing_Valuation => cell_isna (Missing_Valuation r)
  end.

(** ** pandas operations used by the script *)

(** [len(df)]. *)
Definition len (df : list row) : nat := length df.

(** [Series.sum()] with the default [skipna=True]: the missing cells are
    masked to zero and the array is reduced with [+].  The sum is the exact
    one; the machine's int64 or float64 reduction equals it on the
    [exactly_summable] tables (see there). *)
Definition Series_sum (s : list (option Z)) : Z :=
  fold_left Z.add (default 0 <$> s) 0.

(** [Series.sum(skipna=False)], for comparison: a missing cell is not
    skipped and makes the whole sum missing. *)
Definition Series_sum_noskip (s : list (option Z)) : option Z :=
  foldr (λ c acc, v ← c; a ← acc; Some (v + a)) (Some 0) s.

(** [Series.value_counts()] with the default [dropna=True]: a hash table
    from each distinct present value to the number of its occurrences.
    The result is looked up by label only, so it is kept as a map. *)
Definition value_counts (s : list (option bool)) : gmap bool nat :=
  fold_left
    (λ table c,
       match c with
       | None => table
       | Some b => <[b := S (default 0%nat (table !! b))]> table
       end)
    s ∅.

(** [Series.get(key, default)]. *)
Definition Series_get (counts : gmap bool nat) (key : bool) (dflt : nat) : nat :=
  default dflt (counts !! key).

(** [df.dropna(subset=cols)] with the defaults [axis=0], [how='any'],
    [inplace=False]: the rows with no missing cell among [cols], in the
    order of [df]. *)
Definition dropna (subset : list column) (df : list row) : list row :=
  filter (λ r, forallb (λ c, negb (isna c r)) subset = true) df.

(** *** [groupby('State')[value].sum()] *)

(** Order of the group keys: Python compares [str] by code points. *)
Definition str_le (a b : string) : Prop := String.leb a b = true.

Global Instance str_le_dec a b : Decision (str_le a b).
Proof. unfold str_le. apply _. Defined.

Global Instance str_le_total : Total str_le.
Proof. intros a b. apply String.leb_total. Qed.

(** [factorize] with [sort=True], [dropna=True]: the distinct present keys
    in ascending order, and for every row the position of its key among
    them ([None] stands for the code [-1] of a missing key). *)
Definition index_of (uniques : list string) (k : string) : option nat :=
  fst <$> list_find (λ u, u = k) uniques.

Definition factorize (keys : list (option string))
  : list (option nat) * list string :=
  let uniques := merge_sort str_le (remove_dups (omap id keys)) in
  ((λ k, k ≫= index_of uniques) <$> keys, uniques).

(** The [group_sum] kernel: one accumulator per group, every row adds its
    value to the accumulator of its label; rows with label [-1] and
    missing values are passed over, so an all-missing group sums to 0.
    The accumulators are exact, as in [Series_sum]. *)
Definition group_sum (ngroups : nat)
    (values : list (option Z)) (labels : list (option nat)) : list Z :=
  fold_left
    (λ sumx vl,
       match vl with
       | (Some v, Some lab) => alter (Z.add v) lab sumx
       | _ => sumx
       end)
    (zip values labels) (replicate ngroups 0).

(** [df.groupby('State')['Estimated Asset Value (USD)'].sum()]: a Series
    indexed by state, one entry per group, in the order of the keys. *)
Definition groupby_State_sum (df : list row) : list (string * Z) :=
  let '(labels, uniques) := factorize (State <$> df) in
  zip uniques
      (group_sum (length uniques) (Estimated_Asset_Value_USD <$> df) labels).

(** *** [sort_values(ascending=False)] *)

(** [a[indexer]]: positional gather. *)
Definition gather {A} (a : list A) (indexer : list nat) : list A :=
  omap (λ i, a !! i) indexer.

(** pandas' [nargsort] for [ascending=False] on a Series without missing
    values (a group sum is never missing): the values and their positions
    are reversed, argsorted ascending by numpy with the requested [kind],
    and the resulting indexer is reversed again. *)
Definition nargsort_descending (argsort : list Z → list nat)
    (items : list Z) : list nat :=
  let idx := seq 0 (length items) in
  let non_nans := reverse items in
  let non_nan_idx := reverse idx in
  reverse (gather non_nan_idx (argsort non_nans)).

(** [Series.sort_values(ascending=False)]; [argsort] is numpy's
    [ndarray.argsort(kind='quicksort')], the default [kind]. *)
Definition sort_values_descending (argsort : list Z → list nat)
    (s : list (string * Z)) : list (string * Z) :=
  gather s (nargsort_descending argsort s.*2).

(** [DataFrame.head(n)]. *)
Definition head {A} (n : nat) (df : list A) : list A := take n df.

(** What numpy promises of [argsort]: a permutation of the positions that
    lists the values in ascending order.  The order among equal values is
    not part of the promise for [kind='quicksort']. *)
Definition argsort_sorts (items : list Z) (indexer : list nat) : Prop :=
  indexer ≡ₚ seq 0 (length items) ∧ Sorted Z.le (gather items indexer).

Global Instance argsort_sorts_dec items indexer :
  Decision (argsort_sorts items indexer).
Proof. unfold argsort_sorts. apply _. Defined.

(** ** The world the script runs in *)

(** A marker of the folium map.  The popup text is kept as the two values
    that the f-string interpolates. *)
Record marker := CircleMarker {
  location : option Q * option Q;
  radius : Z;
  popup_name : string;
  popup_value : option Z;
  tooltip : string;
  color : string;
  fill : bool;
  fill_color : string;
}.

(** What a Streamlit command puts on the page.  A metric keeps the number
    that its f-string formats. *)
Inductive element :=
| PageConfig (layout : string)
| Error (body : string)
| Title (body : string)
| Markdown (body : string)
| Header (body : string)
| Columns (spec : nat)
| Metric (label : string) (value : Z)
| FoliumMap (center : Q * Q) (zoom_start : Z) (markers : list marker)
| PlotlyChart (title : string) (bars : list (string * Z))
| Checkbox (label : string)
| Dataframe (data : list row).

(** Python objects that live on the heap: the asset table and the frames
    derived from it, and the state/value frame of the ranking. *)
Abbreviation loc := nat.

Inductive pyobj :=
| DataFrame (rows : list row)
| StateFrame (rows : list (string * Z)).

(** An entry of the [st.cache_data] store: the pickled return value
    ([None] is Python's [None]) and the elements the call displayed. *)
Record cached_result := CachedResult {
  cached_value : option pyobj;
  cached_messages : list element;
}.

(** The world of a session: the files on disk, the store of
    [st.cache_data] for [load_data], the heap of Python objects, the paths
    [pd.read_csv] was called with, the page under construction, and the
    state of the checkbox. *)
Record world := World {
  files : gmap string (list row);
  data_cache : gmap string cached_result;
  heap : gmap loc pyobj;
  read_csv_calls : list string;
  page : list element;
  show_raw_data : bool;
}.

Definition set_data_cache (c : gmap string cached_result) (w : world) : world :=
  World (files w) c (heap w) (read_csv_calls w) (page w) (show_raw_data w).
Definition set_heap (h : gmap loc pyobj) (w : world) : world :=
  World (files w) (data_cache w) h (read_csv_calls w) (page w) (show_raw_data w).
Definition set_read_csv_calls (l : list string) (w : world) : world :=
  World (files w) (data_cache w) (heap w) l (page w) (show_raw_data w).
Definition set_page (p : list element) (w : world) : world :=
  World (files w) (data_cache w) (heap w) (read_csv_calls w) p (show_raw_data w).
Definition set_files (fs : gmap string (list row)) (w : world) : world :=
  World fs (data_cache w) (heap w) (read_csv_calls w) (page w) (show_raw_data w).
Definition set_show_raw_data (b : bool) (w : world) : world :=
  World (files w) (data_cache w) (heap w) (read_csv_calls w) (page w) b.

(** ** Commands: state passing with exceptions *)

Inductive exn :=
| FileNotFoundError (filename : string)
| TypeError.

Inductive result (A : Type) :=
| Ok (a : A)
| Raise (e : exn).
Arguments Ok {A} a.
Arguments Raise {A} e.

Definition M (A : Type) : Type := world → result A * world.

Global Instance M_ret : MRet M := λ A a w, (Ok a, w).
Global Instance M_bind : MBind M := λ A B f m w,
  match m w with
  | (Ok a, w') => f a w'
  | (Raise e, w') => (Raise e, w')
  end.

(** [try: body / except FileNotFoundError: handler]. *)
Definition try_except_FileNotFoundError {A} (body : M A) (handler : string → M A)
  : M A := λ w,
  match body w with
  | (Raise (FileNotFoundError f), w') => handler f w'
  | r => r
  end.

(** A Streamlit display command appends its element to the page. *)
Definition emit (e : element) : M unit := λ w, (Ok tt, set_page (page w ++ [e]) w).

(** Object creation: the new object gets an address not in use. *)
Definition alloc (o : pyobj) : M loc := λ w,
  let l := fresh (dom (heap w)) in (Ok l, set_heap (<[l := o]> (heap w)) w).

(** Reading an asset table, or a state/value frame, through a reference. *)
Definition read_DataFrame (l : loc) : M (list row) := λ w,
  match heap w !! l with
  | Some (DataFrame rows) => (Ok rows, w)
  | _ => (Raise TypeError, w)
  end.

Definition read_StateFrame (l : loc) : M (list (string * Z)) := λ w,
  match heap w !! l with
  | Some (StateFrame rows) => (Ok rows, w)
  | _ => (Raise TypeError, w)
  end.

(** [pd.read_csv(filepath)]. *)
Definition read_csv (filepath : string) : M loc := λ w,
  let w := set_read_csv_calls (read_csv_calls w ++ [filepath]) w in
  match files w !! filepath with
  | None => (Raise (FileNotFoundError filepath), w)
  | Some rows => alloc (DataFrame rows) w
  end.

(** ** [load_data] *)

Definition not_found_message (filepath : string) : string :=
  "Error: The file '" +:+ filepath +:+
  "' was not found. Please make sure it's in the same directory as app.py.".

(** The body of [load_data], lines 23-28. *)
Definition load_data_body (filepath : string) : M (option loc) :=
  try_except_FileNotFoundError
    (data ← read_csv filepath; mret (Some data))
    (λ _, emit (Error (not_found_message filepath));; mret None).

(** [@st.cache_data]: the store is keyed by the argument.  On a hit the
    recorded elements are replayed and a fresh copy of the pickled value is
    returned without calling the function; on a miss the function runs and
    its return value is stored with the elements it displayed.  Nothing is
    stored when the function raises.  Entries never expire (no [ttl], no
    [max_entries], no [clear]). *)
Definition cache_data (func : string → M (option loc)) (arg : string)
  : M (option loc) := λ w,
  match data_cache w !! arg with
  | Some entry =>
      let w1 := set_page (page w ++ cached_messages entry) w in
      match cached_value entry with
      | None => (Ok None, w1)
      | Some o => (l ← alloc o; mret (Some l)) w1
      end
  | None =>
      match func arg w with
      | (Raise e, w1) => (Raise e, w1)
      | (Ok v, w1) =>
          let messages := drop (length (page w)) (page w1) in
          match v with
          | None =>
              (Ok None,
               set_data_cache
                 (<[arg := CachedResult None messages]> (data_cache w1)) w1)
          | Some l =>
              match heap w1 !! l with
              | Some o =>
                  (Ok (Some l),
                   set_data_cache
                     (<[arg := CachedResult (Some o) messages]> (data_cache w1))
                     w1)
              | None => (Raise TypeError, w1)
              end
          end
      end
  end.

Definition load_data : string → M (option loc) := cache_data load_data_body.

(** ** The values the script computes from the loaded table *)

(** Line 43. *)
Definition total_assets (df : list row) : nat := len df.

(** Line 44. *)
Definition total_value (df : list row) : Z :=
  Series_sum (Estimated_Asset_Value_USD <$> df).

(** The tables whose sums the machine computes exactly: the absolute values
    of the amounts add up to at most [2^53].  Every partial sum of such a
    table, in whatever order and grouping the reduction takes them (numpy's
    pairwise blocks, the compensated accumulators of [group_sum]), is a
    whole number of absolute value at most [2^53]: int64 holds it without
    wrapping around and float64 without rounding. *)
Definition exactly_summable (df : list row) : Prop :=
  foldr Z.add 0 (Z.abs <$> omap Estimated_Asset_Value_USD df) ≤ 2 ^ 53.

(** Line 46. *)
Definition assets_with_valuation (df : list row) : nat :=
  Series_get (value_counts (Missing_Valuation <$> df)) false 0.

(** Line 60. *)
Definition df_map (df : list row) : list row :=
  dropna [col_Latitude; col_Longitude; col_Estimated_Asset_Value_USD] df.

(** Lines 67-75, the marker of one row of [df_map]. *)
Definition row_marker (r : row) : marker :=
  {| location := (Latitude r, Longitude r);
     radius := 5;
     popup_name := Real_Property_Asset_Name r;
     popup_value := Estimated_Asset_Value_USD r;
     tooltip := Real_Property_Asset_Name r;
     color := "#007bff";
     fill := true;
     fill_color := "#007bff" |}.

(** Line 84; [reset_index()] turns the sorted Series into a frame with the
    columns State and value, its rows are the entries of the Series. *)
Definition value_by_state (argsort : list Z → list nat) (df : list row)
  : list (string * Z) :=
  sort_values_descending argsort (groupby_State_sum df).

(** A pandas expression that reads the frame at [df] and yields a scalar,
    and one that yields a new frame ([inplace=False] throughout). *)
Definition DataFrame_eval {A} (f : list row → A) (df : loc) : M A :=
  rows ← read_DataFrame df; mret (f rows).

Definition DataFrame_derive (f : list row → pyobj) (df : loc) : M loc :=
  rows ← read_DataFrame df; alloc (f rows).

Definition StateFrame_head (n : nat) (sf : loc) : M loc :=
  rows ← read_StateFrame sf; alloc (StateFrame (head n rows)).

(** [st.checkbox(label)]: shows the widget and returns its state. *)
Definition st_checkbox (label : string) : M bool := λ w,
  (Ok (show_raw_data w), set_page (page w ++ [Checkbox label]) w).

(** ** The script *)

Definition DATA_FILE : string := "cleaned_asset_valuation.csv".

Section script.
Variable argsort_quicksort : list Z → list nat.

(** Lines 35-102, the pass over a loaded table. *)
Definition dashboard (df : loc) : M unit :=
  emit (Title "🏛️ Real Property Asset Analysis Dashboard");;
  emit (Markdown "An interactive dashboard for analyzing the value and distribution of real property assets.");;
  emit (Header "📈 Portfolio Overview");;
  n_assets ← DataFrame_eval total_assets df;
  value ← DataFrame_eval total_value df;
  n_valued ← DataFrame_eval assets_with_valuation df;
  emit (Columns 3);;
  emit (Metric "Total Assets" (Z.of_nat n_assets));;
  emit (Metric "Total Estimated Value" value);;
  emit (Metric "Assets with Valuation" (Z.of_nat n_valued));;
  emit (Markdown "---");;
  emit (Header "🗺️ Geospatial Distribution of Assets");;
  map_frame ← DataFrame_derive (λ rows, DataFrame (df_map rows)) df;
  markers ← DataFrame_eval (fmap row_marker) map_frame;
  emit (FoliumMap (QArith_base.Qmake 398283 10000, QArith_base.Qmake (-985795) 10000)
                  4 markers);;
  emit (Header "📊 Value Analysis by State");;
  ranking ← DataFrame_derive
              (λ rows, StateFrame (value_by_state argsort_quicksort rows)) df;
  top ← StateFrame_head 10 ranking;
  bars ← read_StateFrame top;
  emit (PlotlyChart "Top 10 States by Total Asset Value" bars);;
  emit (Header "📋 Explore the Data");;
  checked ← st_checkbox "Show Raw Data Table";
  if checked : bool
  then rows ← read_DataFrame df; emit (Dataframe rows)
  else mret tt.

(** The whole script, on the file [filepath] (line 31 passes [DATA_FILE]). *)
Definition app_on (filepath : string) : M unit :=
  emit (PageConfig "wide");;
  df ← load_data filepath;
  match df with
  | Some df => dashboard df
  | None => mret tt
  end.

Definition app : M unit := app_on DATA_FILE.

End script.

(** One render pass starts from an empty page. *)
Definition render (argsort : list Z → list nat) (w : world) : result unit * world :=
  app argsort (set_page [] w).

(** ** numpy's [argsort(kind='quicksort')]

    The generic kernel of numpy ([aquicksort] of [npysort/quicksort.cpp]):
    an introsort over the index array [tosort], with a median-of-three
    partition for ranges of more than [SMALL_QUICKSORT + 1] elements, an
    insertion sort below that, and a heapsort once the depth limit is used
    up.  Positions [pl], [pr], [pi], ... are offsets into [tosort]; every
    loop takes a bound on its number of iterations.

    This is the kernel numpy runs where it dispatches no vectorised one.
    Recent releases hand [argsort] to a SIMD kernel on the CPUs that
    support one; that kernel is not embedded here: it returns a sorted
    permutation as well, but may list equal values in another order.  The
    properties of the ranking therefore use of the kernel only that it
    sorts ([argsort_sorts], proved of this kernel), never the order it
    gives to equal values. *)
Module numpy.

Definition SMALL_QUICKSORT : nat := 16.

Section kernel.
Variable v : list Z.

(** [v[*p]]. *)
Definition key (tosort : list nat) (p : nat) : Z :=
  default 0 (i ← tosort !! p; v !! i).

(** [v[i]]. *)
Definition val (i : nat) : Z := default 0 (v !! i).

Definition INTP_SWAP (p q : nat) (tosort : list nat) : list nat :=
  match tosort !! p, tosort !! q with
  | Some a, Some b => <[p := b]> (<[q := a]> tosort)
  | _, _ => tosort
  end.

(** [do { ++pi; } while (less(v[*pi], vp));] *)
Fixpoint scan_up (fuel : nat) (tosort : list nat) (vp : Z) (pi : nat) : nat :=
  match fuel with
  | O => S pi
  | S fuel =>
      if key tosort (S pi) <? vp then scan_up fuel tosort vp (S pi) else S pi
  end.

(** [do { --pj; } while (less(vp, v[*pj]));] *)
Fixpoint scan_down (fuel : nat) (tosort : list nat) (vp : Z) (pj : nat) : nat :=
  match fuel with
  | O => pred pj
  | S fuel =>
      if vp <? key tosort (pred pj) then scan_down fuel tosort vp (pred pj)
      else pred pj
  end.

(** The [for (;;)] loop of the partition; yields [tosort] and [pi]. *)
Fixpoint partition_scan (fuel : nat) (tosort : list nat) (vp : Z) (pi pj : nat)
  : list nat * nat :=
  match fuel with
  | O => (tosort, pi)
  | S fuel =>
      let pi := scan_up (length tosort) tosort vp pi in
      let pj := scan_down (length tosort) tosort vp pj in
      if bool_decide (pj ≤ pi)%nat then (tosort, pi)
      else partition_scan fuel (INTP_SWAP pi pj tosort) vp pi pj
  end.

(** One round of the [while ((pr - pl) > SMALL_QUICKSORT)] loop up to the
    final swap: median of three, then the partition around [vp]. *)
Definition partition (tosort : list nat) (pl pr : nat) : list nat * nat :=
  let pm := (pl + (pr - pl) / 2)%nat in
  let tosort :=
    if key tosort pm <? key tosort pl then INTP_SWAP pm pl tosort else tosort in
  let tosort :=
    if key tosort pr <? key tosort pm then INTP_SWAP pr pm tosort else tosort in
  let tosort :=
    if key tosort pm <? key tosort pl then INTP_SWAP pm pl tosort else tosort in
  let vp := key tosort pm in
  let pi := pl in
  let pj := (pr - 1)%nat in
  let tosort := INTP_SWAP pm pj tosort in
  let '(tosort, pi) := partition_scan (length tosort) tosort vp pi pj in
  let pk := (pr - 1)%nat in
  (INTP_SWAP pi pk tosort, pi).

(** The explicit stack holds the ranges still to sort, with their depth. *)
Record range := Range { range_pl : nat; range_pr : nat; range_depth : Z }.

Fixpoint partition_loop (fuel : nat) (tosort : list nat) (pl pr : nat)
    (cdepth : Z) (stack : list range) : list nat * range * list range :=
  match fuel with
  | O => (tosort, Range pl pr cdepth, stack)
  | S fuel =>
      if bool_decide (SMALL_QUICKSORT < pr - pl)%nat then
        let '(tosort, pi) := partition tosort pl pr in
        let cdepth := cdepth - 1 in
        (* push largest partition on stack *)
        if bool_decide (pi - pl < pr - pi)%nat
        then partition_loop fuel tosort pl (pi - 1)%nat cdepth
               (Range (pi + 1)%nat pr cdepth :: stack)
        else partition_loop fuel tosort (pi + 1)%nat pr cdepth
               (Range pl (pi - 1)%nat cdepth :: stack)
      else (tosort, Range pl pr cdepth, stack)
  end.

(** [while (pj > pl && less(vp, v[*pk])) { *pj-- = *pk--; }]; yields
    [tosort] and [pj]. *)
Fixpoint shift_right (fuel : nat) (tosort : list nat) (pl : nat) (vp : Z)
    (pj : nat) : list nat * nat :=
  match fuel with
  | O => (tosort, pj)
  | S fuel =>
      if bool_decide (pl < pj)%nat && (vp <? key tosort (pred pj)) then
        shift_right fuel
          (<[pj := default 0%nat (tosort !! pred pj)]> tosort) pl vp (pred pj)
      else (tosort, pj)
  end.

(** [for (pi = pl + 1; pi <= pr; ++pi)], the insertion sort of a range;
    [todo] counts the positions still to visit. *)
Fixpoint insertion_sort (todo : nat) (tosort : list nat) (pl pi : nat)
  : list nat :=
  match todo with
  | O => tosort
  | S todo =>
      let vi := default 0%nat (tosort !! pi) in
      let vp := val vi in
      let '(tosort, pj) := shift_right (length tosort) tosort pl vp pi in
      insertion_sort todo (<[pj := vi]> tosort) pl (S pi)
  end.

(** [aheapsort]: the heap is the range of [n] positions from [pl], indexed
    from 1 ([a = tosort - 1]). *)
Definition heap_at (tosort : list nat) (pl k : nat) : nat :=
  default 0%nat (tosort !! (pl + k - 1)%nat).

Definition heap_set (pl k x : nat) (tosort : list nat) : list nat :=
  <[(pl + k - 1)%nat := x]> tosort.

(** [for (i = ..., j = ...; j <= n;)]: sift [tmp] down from [i]; yields
    [tosort] with [a[i] = tmp] stored at the end. *)
Fixpoint sift_down (fuel : nat) (tosort : list nat) (pl n tmp i j : nat)
  : list nat :=
  match fuel with
  | O => heap_set pl i tmp tosort
  | S fuel =>
      if bool_decide (j ≤ n)%nat then
        let j :=
          if bool_decide (j < n)%nat
             && (val (heap_at tosort pl j) <? val (heap_at tosort pl (j + 1)))
          then (j + 1)%nat else j in
        if val tmp <? val (heap_at tosort pl j) then
          sift_down fuel (heap_set pl i (heap_at tosort pl j) tosort)
            pl n tmp j (j + j)%nat
        else heap_set pl i tmp tosort
      else heap_set pl i tmp tosort
  end.

(** [for (l = n >> 1; l > 0; --l)]. *)
Fixpoint heapify (l : nat) (tosort : list nat) (pl n : nat) : list nat :=
  match l with
  | O => tosort
  | S l' =>
      let tmp := heap_at tosort pl l in
      heapify l' (sift_down n tosort pl n tmp l (l + l)%nat) pl n
  end.

(** [for (; n > 1;)]. *)
Fixpoint heap_extract (n : nat) (tosort : list nat) (pl : nat) : list nat :=
  match n with
  | O => tosort
  | S n' =>
      if bool_decide (1 < n)%nat then
        let tmp := heap_at tosort pl n in
        let tosort := heap_set pl n (heap_at tosort pl 1) tosort in
        heap_extract n' (sift_down n tosort pl n' tmp 1 2) pl
      else tosort
  end.

Definition aheapsort (tosort : list nat) (pl n : nat) : list nat :=
  heap_extract n (heapify (n / 2) tosort pl n) pl.

(** The [while (1)] loop with its [stack_pop] exit. *)
Fixpoint aquicksort_loop (fuel : nat) (tosort : list nat) (pl pr : nat)
    (cdepth : Z) (stack : list range) : list nat :=
  match fuel with
  | O => tosort
  | S fuel =>
      let '(tosort, stack) :=
        if cdepth <? 0 then (aheapsort tosort pl (pr - pl + 1), stack)
        else
          let '(tosort, Range pl pr _, stack) :=
            partition_loop (length tosort) tosort pl pr cdepth stack in
          (insertion_sort (pr - pl) tosort pl (S pl), stack) in
      match stack with
      | [] => tosort
      | Range pl pr cdepth :: stack =>
          aquicksort_loop fuel tosort pl pr cdepth stack
      end
  end.

Definition aquicksort (tosort : list nat) (num : nat) : list nat :=
  aquicksort_loop (S num) tosort 0 (num - 1)
    (Z.log2 (Z.of_nat num) * 2) [].

End kernel.

(** [a.argsort(kind='quicksort')]: the index array starts as [arange(n)]. *)
Definition argsort_quicksort (a : list Z) : list nat :=
  aquicksort a (seq 0 (length a)) (length a).

End numpy.

(** *** Vocabulary of the sorting kernel *)











(** ** Reading the page *)

(** The elements a command displayed, given the worlds before and after. *)
Definition displayed (w w' : world) : list element :=
  drop (length (page w)) (page w').

(** The value of the first metric with the given label. *)
Fixpoint metric (label : string) (es : list element) : option Z :=
  match es with
  | [] => None
  | Metric l v :: es => if decide (l = label) then Some v else metric label es
  | _ :: es => metric label es
  end.

(** The markers of the first folium map, the bars of the first chart and
    the rows of the first raw-data table. *)
Fixpoint map_markers (es : list element) : option (list marker) :=
  match es with
  | [] => None
  | FoliumMap _ _ ms :: _ => Some ms
  | _ :: es => map_markers es
  end.

Fixpoint chart_bars (es : list element) : option (list (string * Z)) :=
  match es with
  | [] => None
  | PlotlyChart _ bars :: _ => Some bars
  | _ :: es => chart_bars es
  end.

Fixpoint raw_table (es : list element) : option (list row) :=
  match es with
  | [] => None
  | Dataframe rows :: _ => Some rows
  | _ :: es => raw_table es
  end.

(** KPI, map, chart and table elements. *)
Definition is_dashboard_output (e : element) : bool :=
  match e with
  | Metric _ _ | FoliumMap _ _ _ | PlotlyChart _ _ | Dataframe _ => true
  | _ => false
  end.

(** The elements of one pass of [dashboard] over the table [t]. *)
Definition dashboard_page (argsort : list Z → list nat) (t : list row)
    (checked : bool) : list element :=
  [ Title "🏛️ Real Property Asset Analysis Dashboard";
    Markdown "An interactive dashboard for analyzing the value and distribution of real property assets.";
    Header "📈 Portfolio Overview";
    Columns 3;
    Metric "Total Assets" (Z.of_nat (total_assets t));
    Metric "Total Estimated Value" (total_value t);
    Metric "Assets with Valuation" (Z.of_nat (assets_with_valuation t));
    Markdown "---";
    Header "🗺️ Geospatial Distribution of Assets";
    FoliumMap (QArith_base.Qmake 398283 10000, QArith_base.Qmake (-985795) 10000)
              4 (row_marker <$> df_map t);
    Header "📊 Value Analysis by State";
    PlotlyChart "Top 10 States by Total Asset Value"
                (head 10 (value_by_state argsort t));
    Header "📋 Explore the Data";
    Checkbox "Show Raw Data Table" ]
  ++ (if checked then [Dataframe t] else []).

(** The heap after one pass of [dashboard]: three new frames. *)
Definition dashboard_heap (argsort : list Z → list nat) (t : list row)
    (h : gmap loc pyobj) : gmap loc pyobj :=
  let h1 := <[fresh (dom h) := DataFrame (df_map t)]> h in
  let h2 := <[fresh (dom h1) := StateFrame (value_by_state argsort t)]> h1 in
  <[fresh (dom h2) := StateFrame (head 10 (value_by_state argsort t))]> h2.

(** ** Vocabulary of the properties *)

(** A row has all of latitude, longitude and value. *)
Definition located_and_valued (r : row) : Prop :=
  is_Some (Latitude r) ∧ is_Some (Longitude r)
  ∧ is_Some (Estimated_Asset_Value_USD r).

(** Descending order of the values of a state/value frame. *)
Definition descending (bars : list (string * Z)) : Prop :=
  StronglySorted (λ a b, b.2 ≤ a.2) bars.

(** The message [msg] names [path]. *)
Definition mentions (msg path : string) : Prop :=
  ∃ before after, msg = before +:+ path +:+ after.

(** Between its commands a world only gains objects and cache entries:
    the objects and entries of [w] are found unchanged in [w']. *)
Definition extends (w w' : world) : Prop :=
  heap w ⊆ heap w' ∧ data_cache w ⊆ data_cache w'.

Global Instance extends_preorder : PreOrder extends.
Proof.
  split.
  - by intros w.
  - intros w1 w2 w3 [??] [??]. split; by etrans.
Qed.

Definition preserves {A} (m : M A) : Prop := ∀ w, extends w (m w).2.

(** What can happen in a session between two calls of the loader: a
    render pass, another call of the loader, a change of the files on
    disk, a click on the checkbox. *)
Inductive session_step (argsort : list Z → list nat) : relation world :=
| step_render w :
    session_step argsort w (render argsort w).2
| step_load_data filepath w :
    session_step argsort w (load_data filepath w).2
| step_files fs w :
    session_step argsort w (set_files fs w)
| step_checkbox b w :
    session_step argsort w (set_show_raw_data b w).

(** ** Example tables and worlds *)

Definition degrees (n : Z) : Q := QArith_base.Qmake n 1.

(** The scenario of the specification: two assets in CA, one of them
    without latitude, and one in TX flagged as missing its valuation. *)
Definition scenario : list row :=
  [ Row "Asset 1" (Some "CA") (Some (degrees 1)) (Some (degrees 1))
        (Some 100) (Some false);
    Row "Asset 2" (Some "CA") None (Some (degrees 1))
        (Some 50) (Some false);
    Row "Asset 3" (Some "TX") (Some (degrees 2)) (Some (degrees 2))
        (Some 200) (Some true) ].

(** An asset with a value, and one flagged and without a value. *)
Definition valued_asset : row :=
  Row "Asset 1" (Some "CA") (Some (degrees 1)) (Some (degrees 1))
      (Some 100) (Some false).

Definition unvalued_asset : row :=
  Row "Asset 2" (Some "CA") (Some (degrees 1)) (Some (degrees 1))
      None (Some true).

(** An asset whose Missing Valuation cell is empty. *)
Definition unflagged_asset : row :=
  Row "Asset 4" (Some "TX") (Some (degrees 2)) (Some (degrees 2))
      (Some 10) None.

(** A fresh process with the data file holding [rows]: nothing cached,
    nothing on the heap, checkbox not ticked. *)
Definition world_with_file (rows : list row) : world :=
  {| files := {[ DATA_FILE := rows ]};
     data_cache := ∅;
     heap := ∅;
     read_csv_calls := [];
     page := [];
     show_raw_data := false |}.

(** A world in which the loaded table [rows] is the object at address 0,
    with the checkbox ticked. *)
Definition world_with_frame (rows : list row) : world :=
  {| files := {[ DATA_FILE := rows ]};
     data_cache := ∅;
     heap := {[ 0%nat := DataFrame rows ]};
     read_csv_calls := [];
     page := [];
     show_raw_data := true |}.

(** The bodies of the error elements of a page. *)
Fixpoint error_messages (es : list element) : list string :=
  match es with
  | [] => []
  | Error body :: es => body :: error_messages es
  | _ :: es => error_messages es
  end.

(** The data file is loaded by a first call of the loader. *)
Definition world_loaded : world :=
  (load_data DATA_FILE (world_with_file scenario)).2.

(** Later in that session: a pass was rendered, the checkbox ticked and
    the file deleted from disk. *)
Definition world_later : world :=
  set_files ∅
    (set_show_raw_data true (render numpy.argsort_quicksort world_loaded).2).

(** The data file is loaded and rendered once, then deleted from disk. *)
Definition world_file_deleted : world :=
  set_files ∅ (render numpy.argsort_quicksort (world_with_file scenario)).2.

(** The data file is loaded by a first call of the loader, then rewritten
    on disk: it now holds a single asset. *)
Definition world_file_rewritten : world :=
  set_files {[ DATA_FILE := [valued_asset] ]} world_loaded.

(** ** The text of the count metrics

    Lines 50 and 52 display a count with the format [f"{n:,}"]: the
    decimal numeral of [n] with a comma before every group of three
    digits, counted from the right. *)

(** The grouping works on the digits from the last to the first. *)
Fixpoint group_thousands (rev_digits : list ascii) : list ascii :=
  match rev_digits with
  | a :: b :: c :: ((_ :: _) as more) =>
      a :: b :: c :: ","%char :: group_thousands more
  | _ => rev_digits
  end.

(** [f"{n:,}"] for a count; [pretty n] is [str(n)]. *)
Definition format_thousands (n : nat) : string :=
  string_of_list_ascii
    (reverse (group_thousands (reverse (list_ascii_of_string (pretty n))))).

(** The text with its commas deleted. *)
Definition remove_commas (s : string) : string :=
  string_of_list_ascii
    (filter (λ c, c ≠ ","%char) (list_ascii_of_string s)).

(** ** Further vocabulary *)

(** A command leaves a component of the world as it found it. *)
Definition keeps {A B} (component : world → B) (m : M A) : Prop :=
  ∀ w, component (m w).2 = component w.

(** A marker has its coordinates and its value. *)
Definition marker_complete (m : marker) : Prop :=
  is_Some (location m).1 ∧ is_Some (location m).2 ∧ is_Some (popup_value m).

(** What a pass over a loaded table has no business with: the files, the
    cache, the calls of [pd.read_csv] and the checkbox. *)
Definition session_state (w : world)
  : gmap string (list row) * gmap string cached_result * list string * bool :=
  (files w, data_cache w, read_csv_calls w, show_raw_data w).

(** * Properties *)

(** ** Running commands *)

Lemma bind_run {A B} (m : M A) (f : A → M B) w a w' :
  m w = (Ok a, w') → (m ≫= f) w = f a w'.
Proof. intros H. unfold mbind, M_bind. by rewrite H. Qed.

Lemma emit_run e w : emit e w = (Ok tt, set_page (page w ++ [e]) w).
Proof. done. Qed.

Lemma read_DataFrame_run df t w :
  heap w !! df = Some (DataFrame t) → read_DataFrame df w = (Ok t, w).
Proof. intros H. unfold read_DataFrame. by rewrite H. Qed.

Lemma read_StateFrame_run sf t w :
  heap w !! sf = Some (StateFrame t) → read_StateFrame sf w = (Ok t, w).
Proof. intros H. unfold read_StateFrame. by rewrite H. Qed.

Lemma DataFrame_eval_run {A} (f : list row → A) df t w :
  heap w !! df = Some (DataFrame t) → DataFrame_eval f df w = (Ok (f t), w).
Proof.
  intros H. unfold DataFrame_eval.
  by rewrite (bind_run _ _ _ _ _ (read_DataFrame_run _ _ _ H)).
Qed.

Lemma DataFrame_derive_run f df t w :
  heap w !! df = Some (DataFrame t) →
  DataFrame_derive f df w
  = (Ok (fresh (dom (heap w))),
     set_heap (<[fresh (dom (heap w)) := f t]> (heap w)) w).
Proof.
  intros H. unfold DataFrame_derive.
  by rewrite (bind_run _ _ _ _ _ (read_DataFrame_run _ _ _ H)).
Qed.

Lemma StateFrame_head_run n sf t w :
  heap w !! sf = Some (StateFrame t) →
  StateFrame_head n sf w
  = (Ok (fresh (dom (heap w))),
     set_heap (<[fresh (dom (heap w)) := StateFrame (head n t)]> (heap w)) w).
Proof.
  intros H. unfold StateFrame_head.
  by rewrite (bind_run _ _ _ _ _ (read_StateFrame_run _ _ _ H)).
Qed.

(** An object in use is not at the address of a new object. *)
Lemma lookup_insert_fresh (h : gmap loc pyobj) l o o' :
  h !! l = Some o → <[fresh (dom h) := o']> h !! l = Some o.
Proof.
  intros H. rewrite lookup_insert_ne; [done|].
  intros <-. apply (is_fresh (dom h)), elem_of_dom. by eexists.
Qed.

Lemma bind_run_eq {A B} (m : M A) (f : A → M B) w a w' r :
  m w = (Ok a, w') → f a w' = r → (m ≫= f) w = r.
Proof. intros H <-. by apply bind_run. Qed.

Lemma st_checkbox_run label w :
  st_checkbox label w
  = (Ok (show_raw_data w), set_page (page w ++ [Checkbox label]) w).
Proof. done. Qed.

(** Worlds are kept in normal form while a script is run step by step. *)
Ltac world_simpl :=
  unfold set_page, set_heap, set_data_cache, set_read_csv_calls;
  cbn [page heap files data_cache read_csv_calls show_raw_data].

Ltac run_step :=
  lazymatch goal with
  | |- (emit _ ≫= _) _ = _ => eapply bind_run_eq; [apply emit_run|]
  | |- (st_checkbox _ ≫= _) _ = _ => eapply bind_run_eq; [apply st_checkbox_run|]
  | |- (DataFrame_eval _ _ ≫= _) _ = _ =>
      eapply bind_run_eq; [apply DataFrame_eval_run|]
  | |- (DataFrame_derive _ _ ≫= _) _ = _ =>
      eapply bind_run_eq; [apply DataFrame_derive_run|]
  | |- (StateFrame_head _ _ ≫= _) _ = _ =>
      eapply bind_run_eq; [apply StateFrame_head_run|]
  | |- (read_StateFrame _ ≫= _) _ = _ =>
      eapply bind_run_eq; [apply read_StateFrame_run|]
  | |- (read_DataFrame _ ≫= _) _ = _ =>
      eapply bind_run_eq; [apply read_DataFrame_run|]
  end; world_simpl.

(** The pass over a loaded table runs to its end, displays
    [dashboard_page] and leaves [dashboard_heap]. *)
Lemma dashboard_run argsort df t w :
  heap w !! df = Some (DataFrame t) →
  dashboard argsort df w
  = (Ok tt,
     set_heap (dashboard_heap argsort t (heap w))
       (set_page (page w ++ dashboard_page argsort t (show_raw_data w)) w)).
Proof.
  destruct w as [fs c h calls p checked]. world_simpl.
  intros Hdf. unfold dashboard.
  do 3 run_step.
  do 3 (run_step; [exact Hdf|]).
  do 6 run_step.
  run_step; [exact Hdf|].
  run_step; [apply lookup_insert_eq|].
  do 2 run_step.
  run_step; [by apply lookup_insert_fresh|].
  do 2 (run_step; [apply lookup_insert_eq|]).
  do 3 run_step.
  unfold dashboard_heap, dashboard_page.
  destruct checked.
  - run_step; [by do 3 apply lookup_insert_fresh|].
    rewrite emit_run. world_simpl. by rewrite <- !app_assoc.
  - unfold mret, M_ret. by rewrite <- !app_assoc.
Qed.

(** ** Sums and counts *)

(** The sum of the present cells of a column. *)
Lemma fold_left_Zadd (l : list Z) (a : Z) :
  fold_left Z.add l a = a + foldr Z.add 0 l.
Proof.
  revert a. induction l as [|x l IH]; intros a; cbn; [lia|].
  rewrite IH. lia.
Qed.

Lemma Series_sum_cons c s : Series_sum (c :: s) = default 0 c + Series_sum s.
Proof. unfold Series_sum. cbn. rewrite !fold_left_Zadd. lia. Qed.

Lemma Series_sum_app s1 s2 :
  Series_sum (s1 ++ s2) = Series_sum s1 + Series_sum s2.
Proof.
  induction s1 as [|c s1 IH]; [done|].
  rewrite <- app_comm_cons, !Series_sum_cons, IH. lia.
Qed.

Lemma Series_sum_present s : Series_sum s = foldr Z.add 0 (omap id s).
Proof.
  induction s as [|[v|] s IH]; [done| |].
  - rewrite Series_sum_cons. cbn. by rewrite IH.
  - rewrite Series_sum_cons. cbn. by rewrite IH.
Qed.

Lemma Series_sum_noskip_cons c s :
  Series_sum_noskip (c :: s)
  = v ← c; a ← Series_sum_noskip s; Some (v + a).
Proof. done. Qed.

Lemma Series_sum_noskip_Some s z :
  Series_sum_noskip s = Some z ↔ Forall is_Some s ∧ Series_sum s = z.
Proof.
  revert z. induction s as [|c s IH]; intros z.
  - cbn. split; [intros [= <-]|intros [_ <-]]; by auto.
  - rewrite Series_sum_cons, Series_sum_noskip_cons, Forall_cons.
    destruct c as [v|]; cbn.
    + destruct (Series_sum_noskip s) as [a|] eqn:Ha; cbn.
      * destruct (proj1 (IH a) eq_refl) as [Hall <-].
        split; [intros [= <-]|intros [_ <-]]; [|done].
        split; [|done]. split; [by eexists|done].
      * split; [done|]. intros [[_ Hall] <-].
        by pose proof (proj2 (IH (Series_sum s)) (conj Hall eq_refl)).
    + split; [done|]. by intros [[[? [=]] _] _].
Qed.

(** The hash table of [value_counts] after the column [s], started from
    the counts [table]. *)
Lemma value_counts_fold (s : list (option bool)) (table : gmap bool nat) b :
  default 0%nat
    (fold_left
       (λ table c,
          match c with
          | None => table
          | Some b => <[b := S (default 0%nat (table !! b))]> table
          end) s table !! b)
  = (default 0%nat (table !! b) + length (filter (λ c, c = Some b) s))%nat.
Proof.
  revert table. induction s as [|c s IH]; intros table.
  - cbn. lia.
  - cbn [fold_left]. rewrite IH, filter_cons. destruct c as [b'|].
    + destruct (decide (b' = b)) as [->|Hne].
      * rewrite lookup_insert_eq, decide_True by done. cbn. lia.
      * rewrite lookup_insert_ne by done.
        by rewrite decide_False by congruence.
    + by rewrite decide_False by done.
Qed.

Lemma value_counts_get s b :
  Series_get (value_counts s) b 0 = length (filter (λ c, c = Some b) s).
Proof.
  unfold Series_get, value_counts. rewrite value_counts_fold.
  by rewrite lookup_empty.
Qed.

Lemma assets_with_valuation_count t :
  assets_with_valuation t
  = length (filter (λ r, Missing_Valuation r = Some false) t).
Proof.
  unfold assets_with_valuation. rewrite value_counts_get.
  induction t as [|r t IH]; [done|].
  rewrite fmap_cons, !filter_cons.
  destruct (decide (Missing_Valuation r = Some false)); cbn; by rewrite IH.
Qed.
(** ** The map subset *)

Lemma cell_isna_false {A} (c : option A) : cell_isna c = false ↔ is_Some c.
Proof.
  destruct c; cbn; split; try done; try (by eexists); by intros [? [=]].
Qed.

Lemma df_map_keeps r :
  forallb (λ c, negb (isna c r))
    [col_Latitude; col_Longitude; col_Estimated_Asset_Value_USD] = true
  ↔ located_and_valued r.
Proof.
  unfold located_and_valued. cbn.
  rewrite <- !cell_isna_false.
  destruct (cell_isna (Latitude r)), (cell_isna (Longitude r)),
    (cell_isna (Estimated_Asset_Value_USD r)); cbn; intuition congruence.
Qed.

Lemma df_map_filter t : df_map t = filter located_and_valued t.
Proof.
  unfold df_map, dropna.
  induction t as [|r t IH]; [done|].
  rewrite !filter_cons, IH.
  destruct (decide (located_and_valued r)) as [Hr|Hr].
  - rewrite decide_True; [done|]. by apply df_map_keeps.
  - rewrite decide_False; [done|]. by rewrite df_map_keeps.
Qed.

(** ** Grouping by state *)

Lemma index_of_Some uniques k i :
  NoDup uniques → index_of uniques k = Some i ↔ uniques !! i = Some k.
Proof.
  intros Hnd. unfold index_of. split.
  - destruct (list_find _ uniques) as [[j x]|] eqn:E; [|done].
    cbn. intros [= <-]. by apply list_find_Some in E as (? & -> & _).
  - intros Hi.
    destruct (list_find_elem_of (λ u, u = k) uniques k) as [[j x] E];
      [by eapply list_elem_of_lookup_2|done|].
    rewrite E. cbn. f_equal.
    apply list_find_Some in E as (Hj & -> & _).
    by eapply NoDup_lookup.
Qed.

Lemma factorize_uniques_NoDup keys : NoDup (factorize keys).2.
Proof.
  cbn. rewrite merge_sort_Permutation. apply NoDup_remove_dups.
Qed.

Lemma factorize_uniques_elem_of keys k :
  k ∈ (factorize keys).2 ↔ Some k ∈ keys.
Proof.
  cbn. rewrite merge_sort_Permutation, elem_of_remove_dups, list_elem_of_omap.
  split; [intros ([x|] & ? & [= <-]); done|]. intros ?. by exists (Some k).
Qed.

(** The accumulator of group [i] after the rows [t]: what it held before,
    plus the column sum of the rows of [t] in that group. *)
Lemma group_sum_rows uniques t (sumx : list Z) i s :
  NoDup uniques → uniques !! i = Some s →
  fold_left
    (λ sumx vl,
       match vl with
       | (Some v, Some lab) => alter (Z.add v) lab sumx
       | _ => sumx
       end)
    (zip (Estimated_Asset_Value_USD <$> t)
         ((λ k, k ≫= index_of uniques) <$> (State <$> t)))
    sumx !! i
  = (λ x, x + total_value (filter (λ r, State r = Some s) t)) <$> sumx !! i.
Proof.
  intros Hnd Hi. revert sumx.
  induction t as [|r t IH]; intros sumx.
  - cbn. unfold total_value, Series_sum. cbn.
    destruct (sumx !! i); cbn; f_equal; lia.
  - rewrite !fmap_cons. cbn [zip_with fold_left]. rewrite IH, filter_cons.
    set (rest := total_value (filter (λ r, State r = Some s) t)).
    destruct (State r) as [k|] eqn:Hk; cbn.
    + destruct (index_of uniques k) as [lab|] eqn:Hlab; cbn.
      * apply index_of_Some in Hlab; [|done].
        destruct (decide (lab = i)) as [->|Hne].
        -- assert (k = s) as -> by congruence.
           rewrite decide_True by done.
           unfold total_value. rewrite fmap_cons, Series_sum_cons.
           fold (total_value (filter (λ r, State r = Some s) t)). fold rest.
           destruct (Estimated_Asset_Value_USD r) as [v|]; cbn.
           ++ rewrite list_lookup_alter_eq.
              destruct (sumx !! i); cbn; f_equal; lia.
           ++ destruct (sumx !! i); cbn; f_equal; lia.
        -- rewrite decide_False.
           2:{ intros [= ->]. apply Hne. by eapply NoDup_lookup. }
           destruct (Estimated_Asset_Value_USD r) as [v|]; cbn; [|done].
           by rewrite list_lookup_alter_ne.
      * rewrite decide_False.
        2:{ intros [= ->]. apply (index_of_Some _ _ _ Hnd) in Hi. congruence. }
        by destruct (Estimated_Asset_Value_USD r).
    + rewrite decide_False by done.
      by destruct (Estimated_Asset_Value_USD r).
Qed.

(** Every entry of the grouped Series holds the column sum of the rows of
    its state. *)
Lemma groupby_State_sum_entry t s v :
  (s, v) ∈ groupby_State_sum t →
  v = total_value (filter (λ r, State r = Some s) t).
Proof.
  unfold groupby_State_sum.
  destruct (factorize (State <$> t)) as [labels uniques] eqn:E.
  pose proof (factorize_uniques_NoDup (State <$> t)) as Hnd.
  rewrite E in Hnd. cbn in Hnd.
  intros Hin. apply list_elem_of_lookup in Hin as [i Hi].
  apply lookup_zip_Some in Hi as [Hs Hv].
  unfold factorize in E. injection E as <- Hu.
  unfold group_sum in Hv. rewrite Hu in Hv.
  rewrite (group_sum_rows uniques t _ i s Hnd Hs) in Hv.
  rewrite lookup_replicate_2 in Hv by (by eapply lookup_lt_Some).
  cbn in Hv. by injection Hv as <-.
Qed.

Lemma groupby_State_sum_length t :
  length (groupby_State_sum t) = length (factorize (State <$> t)).2.
Proof.
  unfold groupby_State_sum.
  destruct (factorize (State <$> t)) as [labels uniques] eqn:E. cbn.
  rewrite length_zip_with.
  assert (length (group_sum (length uniques)
            (Estimated_Asset_Value_USD <$> t) labels) = length uniques) as ->;
    [|lia].
  unfold group_sum.
  generalize (zip (Estimated_Asset_Value_USD <$> t) labels).
  intros vls. generalize (length uniques). intros n.
  rewrite <- (length_replicate n 0) at 2.
  generalize (replicate n 0). induction vls as [|[[v|] [lab|]] vls IH];
    intros sumx; cbn; rewrite ?IH, ?length_alter; done.
Qed.

(** The states of the grouped Series: each state of the table once. *)
Lemma groupby_State_sum_states t :
  (groupby_State_sum t).*1 = (factorize (State <$> t)).2.
Proof.
  pose proof (groupby_State_sum_length t) as Hlen. revert Hlen.
  unfold groupby_State_sum.
  destruct (factorize (State <$> t)) as [labels uniques] eqn:E. cbn.
  rewrite length_zip_with. intros Hlen. apply fst_zip. lia.
Qed.

(** The groups are emitted in ascending order of the state codes, each
    state of the table once. *)
Lemma groupby_State_sum_sorted t : Sorted str_le (groupby_State_sum t).*1.
Proof. rewrite groupby_State_sum_states. apply Sorted_merge_sort, _. Qed.

Lemma groupby_State_sum_NoDup t : NoDup (groupby_State_sum t).*1.
Proof. rewrite groupby_State_sum_states. apply factorize_uniques_NoDup. Qed.

Lemma groupby_State_sum_elem_of t s :
  s ∈ (groupby_State_sum t).*1 ↔ ∃ r, r ∈ t ∧ State r = Some s.
Proof.
  rewrite groupby_State_sum_states, factorize_uniques_elem_of.
  rewrite list_elem_of_fmap. split.
  - intros (r & Hs & Hr). by exists r.
  - intros (r & Hr & Hs). by exists r.
Qed.

(** ** Sorting by value *)

Lemma gather_all {A} (a : list A) : gather a (seq 0 (length a)) = a.
Proof.
  unfold gather. induction a as [|x a IH] using rev_ind; [done|].
  rewrite length_app, Nat.add_1_r, seq_S, omap_app. cbn.
  rewrite list_lookup_middle by done. cbn. f_equal.
  rewrite <- IH at 2. apply list_omap_ext, Forall_Forall2_diag, Forall_forall.
  intros i Hi%elem_of_seq. apply lookup_app_l. lia.
Qed.

Lemma gather_Permutation {A} (a : list A) indexer :
  indexer ≡ₚ seq 0 (length a) → gather a indexer ≡ₚ a.
Proof.
  intros H. unfold gather. rewrite H.
  fold (gather a (seq 0 (length a))). by rewrite gather_all.
Qed.

Lemma gather_fmap {A B} (f : A → B) (a : list A) indexer :
  f <$> gather a indexer = gather (f <$> a) indexer.
Proof.
  unfold gather. induction indexer as [|i p IH]; [done|].
  cbn. rewrite list_lookup_fmap. destruct (a !! i); cbn; by rewrite IH.
Qed.

Lemma gather_reverse {A} (a : list A) indexer :
  gather a (reverse indexer) = reverse (gather a indexer).
Proof.
  unfold gather. induction indexer as [|i p IH]; [done|].
  rewrite reverse_cons, omap_app, IH. cbn [omap list_omap].
  destruct (a !! i); [by rewrite reverse_cons|by rewrite app_nil_r].
Qed.

Lemma gather_lookup {A} (a : list A) (b : list nat) i :
  Forall (λ j, (j < length a)%nat) b →
  gather a b !! i = b !! i ≫= λ j, a !! j.
Proof.
  unfold gather. intros Hb. revert i.
  induction Hb as [|j b Hj Hb IH]; intros i; [done|].
  cbn. destruct (lookup_lt_is_Some_2 a j Hj) as [x Hx]. rewrite Hx.
  destruct i as [|i]; cbn; [done|]. apply IH.
Qed.

Lemma gather_cons {A} (a : list A) i p :
  gather a (i :: p)
  = match a !! i with Some x => x :: gather a p | None => gather a p end.
Proof. done. Qed.

Lemma gather_gather {A} (a : list A) (b p : list nat) :
  Forall (λ j, (j < length a)%nat) b →
  gather a (gather b p) = gather (gather a b) p.
Proof.
  intros Hb. induction p as [|i p IH]; [done|].
  rewrite (gather_cons b), (gather_cons (gather a b)), gather_lookup by done.
  destruct (b !! i) as [j|]; cbn [mbind option_bind]; [|done].
  rewrite gather_cons. destruct (a !! j); by rewrite IH.
Qed.

Lemma gather_reverse_positions {A} (a : list A) :
  gather a (reverse (seq 0 (length a))) = reverse a.
Proof. by rewrite gather_reverse, gather_all. Qed.

Lemma gather_subseteq {A} (a : list A) indexer x :
  x ∈ gather a indexer → x ∈ a.
Proof.
  unfold gather. intros (i & _ & Hi)%list_elem_of_omap.
  by eapply list_elem_of_lookup_2.
Qed.

(** The indexer of the descending sort is a permutation of the positions. *)
Lemma nargsort_descending_Permutation argsort items :
  argsort (reverse items) ≡ₚ seq 0 (length items) →
  nargsort_descending argsort items ≡ₚ seq 0 (length items).
Proof.
  intros Hp. unfold nargsort_descending.
  rewrite reverse_Permutation.
  etrans; [apply gather_Permutation|apply reverse_Permutation].
  by rewrite length_reverse, length_seq.
Qed.

(** The values in the order of that indexer are those numpy listed in
    ascending order, read backwards. *)
Lemma nargsort_descending_values argsort items :
  gather items (nargsort_descending argsort items)
  = reverse (gather (reverse items) (argsort (reverse items))).
Proof.
  unfold nargsort_descending.
  rewrite gather_reverse. f_equal.
  rewrite gather_gather.
  - by rewrite gather_reverse_positions.
  - apply Forall_forall. intros j Hj.
    apply elem_of_reverse, elem_of_seq in Hj. lia.
Qed.

Lemma StronglySorted_fmap_inv {A B} (f : A → B) (R : relation B) (l : list A) :
  StronglySorted R (f <$> l) → StronglySorted (λ x y, R (f x) (f y)) l.
Proof.
  induction l as [|x l IH]; [constructor|].
  cbn. intros [Hx Hl]%StronglySorted_cons. constructor; [by apply IH|].
  by rewrite Forall_fmap in Hx.
Qed.


Lemma sort_values_descending_Permutation argsort s :
  argsort_sorts (reverse s.*2) (argsort (reverse s.*2)) →
  sort_values_descending argsort s ≡ₚ s.
Proof.
  intros [Hp _]. unfold sort_values_descending.
  rewrite length_reverse in Hp.
  apply gather_Permutation.
  rewrite <- (length_fmap snd s). by apply nargsort_descending_Permutation.
Qed.

Lemma sort_values_descending_sorted argsort s :
  argsort_sorts (reverse s.*2) (argsort (reverse s.*2)) →
  descending (sort_values_descending argsort s).
Proof.
  intros [_ Hs]. unfold sort_values_descending, descending.
  apply (StronglySorted_fmap_inv snd (λ x y, y ≤ x)).
  rewrite gather_fmap, nargsort_descending_values.
  apply Sorted_StronglySorted; [intros x y z ??; lia|].
  by apply (Sorted_reverse Z.le).
Qed.

(** ** numpy's quicksort sorts

    The index array stays a permutation of the positions, every operation
    works within its range, and the ranges left pending shrink until the
    array is sorted: the partition splits a range around its pivot, the
    insertion sort and the heapsort finish one. *)

Section kernel_facts.
Variable v : list Z.
Local Abbreviation key := (numpy.key v).
Local Abbreviation val := (numpy.val v).
Local Abbreviation INTP_SWAP := numpy.INTP_SWAP.
Local Open Scope nat_scope.








(** **** [INTP_SWAP] *)






(** **** The partition *)





(** **** The insertion sort of a small range *)




(** **** Elements stay in the range an operation works on *)



(** **** The heapsort of a range *)







End kernel_facts.

Section heapsort_facts.
Variable v : list Z.
Local Abbreviation key := (numpy.key v).
Local Abbreviation val := (numpy.val v).
Local Open Scope nat_scope.






End heapsort_facts.

Section quicksort_facts.
Variable v : list Z.
Local Abbreviation key := (numpy.key v).
Local Abbreviation val := (numpy.val v).
Local Abbreviation Range := numpy.Range.
Local Open Scope nat_scope.











End quicksort_facts.

(** ** The loader *)

(** The body of [load_data] on a file that exists, and on one that does
    not: the exception of [read_csv] does not leave the function. *)
Lemma load_data_body_found filepath rows w :
  files w !! filepath = Some rows →
  load_data_body filepath w
  = (Ok (Some (fresh (dom (heap w)))),
     set_heap (<[fresh (dom (heap w)) := DataFrame rows]> (heap w))
       (set_read_csv_calls (read_csv_calls w ++ [filepath]) w)).
Proof.
  intros H. unfold load_data_body, try_except_FileNotFoundError.
  unfold mbind, M_bind, read_csv. cbn. by rewrite H.
Qed.

Lemma load_data_body_not_found filepath w :
  files w !! filepath = None →
  load_data_body filepath w
  = (Ok None,
     set_page (page w ++ [Error (not_found_message filepath)])
       (set_read_csv_calls (read_csv_calls w ++ [filepath]) w)).
Proof.
  intros H. unfold load_data_body, try_except_FileNotFoundError.
  unfold mbind, M_bind, read_csv. cbn. by rewrite H.
Qed.

(** The three ways a call of the cached [load_data] goes. *)
Lemma load_data_hit filepath entry w :
  data_cache w !! filepath = Some entry →
  load_data filepath w
  = match cached_value entry with
    | None => (Ok None, set_page (page w ++ cached_messages entry) w)
    | Some o =>
        (Ok (Some (fresh (dom (heap w)))),
         set_heap (<[fresh (dom (heap w)) := o]> (heap w))
           (set_page (page w ++ cached_messages entry) w))
    end.
Proof.
  intros H. unfold load_data, cache_data. rewrite H.
  by destruct (cached_value entry).
Qed.

Lemma load_data_miss_found filepath rows w :
  data_cache w !! filepath = None → files w !! filepath = Some rows →
  load_data filepath w
  = (Ok (Some (fresh (dom (heap w)))),
     set_data_cache
       (<[filepath := CachedResult (Some (DataFrame rows)) []]> (data_cache w))
       (set_heap (<[fresh (dom (heap w)) := DataFrame rows]> (heap w))
          (set_read_csv_calls (read_csv_calls w ++ [filepath]) w))).
Proof.
  intros Hc Hf. unfold load_data, cache_data. rewrite Hc.
  rewrite (load_data_body_found _ _ _ Hf). cbn.
  rewrite lookup_insert_eq. by rewrite drop_all.
Qed.

Lemma load_data_miss_not_found filepath w :
  data_cache w !! filepath = None → files w !! filepath = None →
  load_data filepath w
  = (Ok None,
     set_data_cache
       (<[filepath := CachedResult None [Error (not_found_message filepath)]]>
          (data_cache w))
       (set_page (page w ++ [Error (not_found_message filepath)])
          (set_read_csv_calls (read_csv_calls w ++ [filepath]) w))).
Proof.
  intros Hc Hf. unfold load_data, cache_data. rewrite Hc.
  rewrite (load_data_body_not_found _ _ Hf). cbn.
  by rewrite drop_app_length.
Qed.

(** A call of [load_data] returns, and leaves an entry for its path. *)
Lemma load_data_returns filepath w :
  ∃ v entry,
    (load_data filepath w).1 = Ok v
    ∧ data_cache (load_data filepath w).2 !! filepath = Some entry
    ∧ cached_value entry = v ≫= λ l, heap (load_data filepath w).2 !! l.
Proof.
  destruct (data_cache w !! filepath) as [entry|] eqn:Hc.
  - rewrite (load_data_hit _ _ _ Hc).
    destruct (cached_value entry) as [o|] eqn:Ho; cbn.
    + eexists _, entry. split; [done|]. split; [done|].
      cbn. by rewrite lookup_insert_eq.
    + by eexists _, entry.
  - destruct (files w !! filepath) as [rows|] eqn:Hf.
    + rewrite (load_data_miss_found _ _ _ Hc Hf). cbn.
      eexists _, _. split; [done|]. split; [apply lookup_insert_eq|].
      cbn. by rewrite lookup_insert_eq.
    + rewrite (load_data_miss_not_found _ _ Hc Hf). cbn.
      eexists _, _. split; [done|]. split; [apply lookup_insert_eq|done].
Qed.

(** The script once the loader has returned a table is the pass over it. *)
Lemma app_on_loaded argsort filepath w df w1 :
  load_data filepath (set_page (page w ++ [PageConfig "wide"]) w)
  = (Ok (Some df), w1) →
  app_on argsort filepath w = dashboard argsort df w1.
Proof.
  intros Hload. unfold app_on.
  eapply bind_run_eq; [apply emit_run|].
  by eapply bind_run_eq; [exact Hload|].
Qed.

(** The first pass over a file that exists reads it once and displays the
    dashboard of its rows. *)
Lemma app_on_found argsort filepath rows w :
  data_cache w !! filepath = None → files w !! filepath = Some rows →
  ∃ w', app_on argsort filepath w = (Ok tt, w')
        ∧ displayed w w'
          = PageConfig "wide" :: dashboard_page argsort rows (show_raw_data w)
        ∧ read_csv_calls w' = read_csv_calls w ++ [filepath].
Proof.
  intros Hc Hf. eexists. split.
  - erewrite app_on_loaded;
      [|apply load_data_miss_found; [exact Hc|exact Hf]].
    apply dashboard_run. apply lookup_insert_eq.
  - split; [|reflexivity]. unfold displayed. world_simpl.
    rewrite <- app_assoc. apply drop_app_length.
Qed.

(** A later pass displays the dashboard of the cached table without
    reading the file. *)
Lemma app_on_cached argsort filepath rows messages w :
  data_cache w !! filepath
  = Some (CachedResult (Some (DataFrame rows)) messages) →
  ∃ w', app_on argsort filepath w = (Ok tt, w')
        ∧ displayed w w'
          = PageConfig "wide"
            :: messages ++ dashboard_page argsort rows (show_raw_data w)
        ∧ read_csv_calls w' = read_csv_calls w.
Proof.
  intros Hc. eexists. split.
  - erewrite app_on_loaded;
      [|exact (load_data_hit filepath _
                 (set_page (page w ++ [PageConfig "wide"]) w) Hc)].
    apply dashboard_run. apply lookup_insert_eq.
  - split; [|reflexivity]. unfold displayed. world_simpl.
    rewrite <- !app_assoc. apply drop_app_length.
Qed.

(** ** What every command leaves in place *)

Lemma alloc_extends (h : gmap loc pyobj) o : h ⊆ <[fresh (dom h) := o]> h.
Proof. apply insert_subseteq, not_elem_of_dom, is_fresh. Qed.

Lemma preserves_ret {A} (a : A) : preserves (mret a).
Proof. by intros w. Qed.

Lemma preserves_bind {A B} (m : M A) (f : A → M B) :
  preserves m → (∀ a, preserves (f a)) → preserves (m ≫= f).
Proof.
  intros Hm Hf w. specialize (Hm w). unfold mbind, M_bind.
  destruct (m w) as [[a|e] w']; [|done]. etrans; [exact Hm|apply Hf].
Qed.

Lemma preserves_emit e : preserves (emit e).
Proof. by intros w. Qed.

Lemma preserves_alloc o : preserves (alloc o).
Proof. intros w. split; [apply alloc_extends|done]. Qed.

Lemma preserves_read_DataFrame df : preserves (read_DataFrame df).
Proof. intros w. unfold read_DataFrame. by destruct (heap w !! df) as [[]|]. Qed.

Lemma preserves_read_StateFrame sf : preserves (read_StateFrame sf).
Proof. intros w. unfold read_StateFrame. by destruct (heap w !! sf) as [[]|]. Qed.

Lemma preserves_st_checkbox label : preserves (st_checkbox label).
Proof. by intros w. Qed.

Lemma preserves_load_data filepath : preserves (load_data filepath).
Proof.
  intros w. destruct (data_cache w !! filepath) as [entry|] eqn:Hc.
  - rewrite (load_data_hit _ _ _ Hc).
    destruct (cached_value entry); [|done]. split; [apply alloc_extends|done].
  - destruct (files w !! filepath) as [rows|] eqn:Hf.
    + rewrite (load_data_miss_found _ _ _ Hc Hf).
      split; [apply alloc_extends|by apply insert_subseteq].
    + rewrite (load_data_miss_not_found _ _ Hc Hf).
      split; [done|by apply insert_subseteq].
Qed.

Lemma preserves_dashboard argsort df : preserves (dashboard argsort df).
Proof.
  unfold dashboard, DataFrame_eval, DataFrame_derive, StateFrame_head.
  repeat first
    [ apply preserves_emit | apply preserves_alloc | apply preserves_ret
    | apply preserves_read_DataFrame | apply preserves_read_StateFrame
    | apply preserves_st_checkbox
    | apply preserves_bind; [|intros ?]
    | match goal with |- preserves (if ?b then _ else _) => destruct b end ].
Qed.

Lemma preserves_app_on argsort filepath : preserves (app_on argsort filepath).
Proof.
  unfold app_on.
  apply preserves_bind; [apply preserves_emit|intros _].
  apply preserves_bind; [apply preserves_load_data|intros [df|]].
  - apply preserves_dashboard.
  - apply preserves_ret.
Qed.

(** Cache entries survive whatever happens in a session. *)
Lemma session_step_data_cache argsort w w' :
  session_step argsort w w' → data_cache w ⊆ data_cache w'.
Proof.
  destruct 1 as [w|filepath w|fs w|b w]; [| |done..].
  - unfold render, app. etrans; [|apply preserves_app_on]. done.
  - apply preserves_load_data.
Qed.

Lemma session_data_cache argsort w w' filepath entry :
  rtc (session_step argsort) w w' →
  data_cache w !! filepath = Some entry → data_cache w' !! filepath = Some entry.
Proof.
  induction 1 as [|w1 w2 w3 Hstep _ IH]; [done|].
  intros H. apply IH.
  by eapply lookup_weaken; [|eapply session_step_data_cache].
Qed.

(** ** The KPIs *)

Lemma displayed_dashboard argsort t w :
  displayed w
    (set_heap (dashboard_heap argsort t (heap w))
       (set_page (page w ++ dashboard_page argsort t (show_raw_data w)) w))
  = dashboard_page argsort t (show_raw_data w).
Proof. unfold displayed. cbn. apply drop_app_length. Qed.

(** C5: for every loaded table with N rows, the Total Assets KPI of the
    pass over it is N. *)
Theorem total_assets_kpi argsort w df t :
  heap w !! df = Some (DataFrame t) →
  ∃ w', dashboard argsort df w = (Ok tt, w')
        ∧ metric "Total Assets" (displayed w w') = Some (Z.of_nat (length t)).
Proof.
  intros Hdf. eexists. split; [by apply dashboard_run|].
  by rewrite displayed_dashboard.
Qed.

(** C5 on the scenario of the specification: three rows. *)
Lemma total_assets_kpi_witness :
  ∃ w', dashboard numpy.argsort_quicksort 0%nat (world_with_frame scenario)
        = (Ok tt, w')
        ∧ metric "Total Assets" (displayed (world_with_frame scenario) w')
          = Some 3.
Proof.
  apply (total_assets_kpi numpy.argsort_quicksort
           (world_with_frame scenario) 0%nat scenario).
  reflexivity.
Defined.

(** C6: for every loaded table, the Assets with Valuation KPI is the
    number of rows whose Missing Valuation flag is false. *)
Theorem assets_with_valuation_kpi argsort w df t :
  heap w !! df = Some (DataFrame t) →
  ∃ w', dashboard argsort df w = (Ok tt, w')
        ∧ metric "Assets with Valuation" (displayed w w')
          = Some (Z.of_nat
                    (length (filter (λ r, Missing_Valuation r = Some false) t))).
Proof.
  intros Hdf. eexists. split; [by apply dashboard_run|].
  rewrite displayed_dashboard, <- assets_with_valuation_count. done.
Qed.

(** C6 on the scenario: two rows have the flag false. *)
Lemma assets_with_valuation_kpi_witness :
  ∃ w', dashboard numpy.argsort_quicksort 0%nat (world_with_frame scenario)
        = (Ok tt, w')
        ∧ metric "Assets with Valuation"
            (displayed (world_with_frame scenario) w')
          = Some 2.
Proof.
  apply (assets_with_valuation_kpi numpy.argsort_quicksort
           (world_with_frame scenario) 0%nat scenario).
  reflexivity.
Defined.

(** Every row has its flag false, true, or absent. *)
Lemma Missing_Valuation_partition t :
  (length (filter (λ r, Missing_Valuation r = Some false) t)
   + length (filter (λ r, Missing_Valuation r = Some true) t)
   + length (filter (λ r, Missing_Valuation r = None) t))%nat
  = length t.
Proof.
  induction t as [|r t IH]; [done|].
  rewrite !filter_cons.
  destruct (Missing_Valuation r) as [[]|];
    repeat (first [rewrite decide_True by done|rewrite decide_False by done]);
    cbn [length]; lia.
Qed.

(** C10: a row whose Missing Valuation flag is absent is counted neither
    as valued nor as flagged.  The Assets with Valuation KPI counts the
    rows whose flag is false; together with the rows whose flag is true
    they are at most Total Assets, and fewer as soon as some flag is
    absent. *)
Theorem absent_flag_not_counted argsort w df t :
  heap w !! df = Some (DataFrame t) →
  ∃ w' valued total,
    dashboard argsort df w = (Ok tt, w')
    ∧ metric "Assets with Valuation" (displayed w w') = Some (Z.of_nat valued)
    ∧ metric "Total Assets" (displayed w w') = Some (Z.of_nat total)
    ∧ valued = length (filter (λ r, Missing_Valuation r = Some false) t)
    ∧ (valued + length (filter (λ r, Missing_Valuation r = Some true) t)
       ≤ total)%nat
    ∧ (Exists (λ r, Missing_Valuation r = None) t →
       (valued + length (filter (λ r, Missing_Valuation r = Some true) t)
        < total)%nat).
Proof.
  intros Hdf.
  exists (set_heap (dashboard_heap argsort t (heap w))
            (set_page (page w ++ dashboard_page argsort t (show_raw_data w)) w)),
    (assets_with_valuation t), (total_assets t).
  split; [by apply dashboard_run|].
  rewrite displayed_dashboard. do 2 (split; [done|]).
  rewrite assets_with_valuation_count. split; [done|].
  pose proof (Missing_Valuation_partition t) as Hall.
  unfold total_assets, len. split; [lia|].
  intros Hex.
  assert (0 < length (filter (λ r, Missing_Valuation r = None) t))%nat; [|lia].
  apply Exists_exists in Hex as (r & Hr & Hnone).
  assert (r ∈ filter (λ r, Missing_Valuation r = None) t) as Hin
    by by apply list_elem_of_filter.
  apply list_elem_of_lookup in Hin as [i Hi]. apply lookup_lt_Some in Hi. lia.
Qed.

(** C10 on the scenario with one more row whose flag is absent. *)
Lemma absent_flag_not_counted_witness :
  ∃ w' valued total,
    dashboard numpy.argsort_quicksort 0%nat
      (world_with_frame (unflagged_asset :: scenario)) = (Ok tt, w')
    ∧ metric "Assets with Valuation"
        (displayed (world_with_frame (unflagged_asset :: scenario)) w')
      = Some (Z.of_nat valued)
    ∧ metric "Total Assets"
        (displayed (world_with_frame (unflagged_asset :: scenario)) w')
      = Some (Z.of_nat total)
    ∧ valued = 2%nat
    ∧ (valued + 1 ≤ total)%nat
    ∧ (Exists (λ r, Missing_Valuation r = None) (unflagged_asset :: scenario) →
       (valued + 1 < total)%nat).
Proof.
  apply (absent_flag_not_counted numpy.argsort_quicksort
           (world_with_frame (unflagged_asset :: scenario)) 0%nat
           (unflagged_asset :: scenario)).
  reflexivity.
Defined.

(** ** The total value *)

Lemma total_value_present t :
  total_value t = foldr Z.add 0 (omap Estimated_Asset_Value_USD t).
Proof.
  unfold total_value. rewrite Series_sum_present.
  induction t as [|r t IH]; [done|].
  rewrite fmap_cons. cbn [omap list_omap]. unfold id at 1.
  destruct (Estimated_Asset_Value_USD r); cbn [foldr]; by rewrite IH.
Qed.

Lemma total_value_row t1 r t2 :
  total_value (t1 ++ r :: t2)
  = default 0 (Estimated_Asset_Value_USD r) + total_value (t1 ++ t2).
Proof.
  unfold total_value.
  rewrite !fmap_app, fmap_cons, !Series_sum_app, Series_sum_cons. lia.
Qed.

(** C1, amended: for every loaded table whose amounts are summed exactly
    ([exactly_summable]: whole dollars whose absolute values add up to at
    most 2^53), the Total Estimated Value KPI is the sum of the values that
    are present in the Estimated Asset Value column.  Every row with a
    value adds its value, whatever its Missing Valuation flag; a row
    without a value adds nothing. *)
Theorem total_value_kpi argsort w df t :
  heap w !! df = Some (DataFrame t) →
  exactly_summable t →
  ∃ w' total,
    dashboard argsort df w = (Ok tt, w')
    ∧ metric "Total Estimated Value" (displayed w w') = Some total
    ∧ total = foldr Z.add 0 (omap Estimated_Asset_Value_USD t)
    ∧ (∀ t1 r t2 v,
         t = t1 ++ r :: t2 → Estimated_Asset_Value_USD r = Some v →
         total = v + total_value (t1 ++ t2))
    ∧ (∀ t1 r t2,
         t = t1 ++ r :: t2 → Estimated_Asset_Value_USD r = None →
         total = total_value (t1 ++ t2)).
Proof.
  intros Hdf _. eexists _, (total_value t).
  split; [by apply dashboard_run|].
  rewrite displayed_dashboard. split; [done|].
  split; [apply total_value_present|].
  split.
  - intros t1 r t2 v -> Hv. by rewrite total_value_row, Hv.
  - intros t1 r t2 -> Hv. by rewrite total_value_row, Hv.
Qed.

(** C1 on the scenario: 100 + 50 + 200. *)
Lemma total_value_kpi_witness :
  ∃ w' total,
    dashboard numpy.argsort_quicksort 0%nat (world_with_frame scenario)
    = (Ok tt, w')
    ∧ metric "Total Estimated Value" (displayed (world_with_frame scenario) w')
      = Some total
    ∧ total = 350
    ∧ (∀ t1 r t2 v,
         scenario = t1 ++ r :: t2 → Estimated_Asset_Value_USD r = Some v →
         total = v + total_value (t1 ++ t2))
    ∧ (∀ t1 r t2,
         scenario = t1 ++ r :: t2 → Estimated_Asset_Value_USD r = None →
         total = total_value (t1 ++ t2)).
Proof.
  apply (total_value_kpi numpy.argsort_quicksort
           (world_with_frame scenario) 0%nat scenario).
  - reflexivity.
  - unfold exactly_summable. simpl. lia.
Defined.

(** C1, as stated, fails on a table with an absent value: the flagged row
    without a value is skipped ([skipna=True]), the KPI is that of the
    table without the row, where a sum that skips no row is missing. *)
Lemma total_value_skips_absent_value :
  metric "Total Estimated Value"
    (page (render numpy.argsort_quicksort
             (world_with_file [valued_asset; unvalued_asset])).2)
  = Some 100
  ∧ metric "Total Estimated Value"
      (page (render numpy.argsort_quicksort
               (world_with_file [valued_asset])).2)
    = Some 100
  ∧ Series_sum_noskip
      (Estimated_Asset_Value_USD <$> [valued_asset; unvalued_asset])
    = None.
Proof. vm_compute. done. Qed.

(** ** The map subset on the page *)

(** C3: for every loaded table, the map subset ([df_map], the frame the
    markers are drawn from) holds no row with an absent latitude,
    longitude or value, holds every row that has all three, and keeps the
    rows in the order of the table. *)
Theorem map_subset argsort w df t :
  heap w !! df = Some (DataFrame t) →
  ∃ w' l subset,
    dashboard argsort df w = (Ok tt, w')
    ∧ heap w !! l = None ∧ heap w' !! l = Some (DataFrame subset)
    ∧ map_markers (displayed w w') = Some (row_marker <$> subset)
    ∧ Forall located_and_valued subset
    ∧ (∀ r, r ∈ t → located_and_valued r → r ∈ subset)
    ∧ subset `sublist_of` t
    ∧ subset = filter located_and_valued t.
Proof.
  intros Hdf. eexists _, (fresh (dom (heap w))), (df_map t).
  split; [by apply dashboard_run|].
  split; [apply not_elem_of_dom, is_fresh|].
  split.
  { cbn. unfold dashboard_heap.
    do 2 apply lookup_insert_fresh. apply lookup_insert_eq. }
  rewrite displayed_dashboard. split; [done|].
  rewrite df_map_filter. split; [|split; [|split]].
  - apply Forall_forall. by intros r [? _]%list_elem_of_filter.
  - intros r ??. by apply list_elem_of_filter.
  - apply sublist_filter.
  - done.
Qed.

(** C3 on the scenario. *)
Lemma map_subset_witness :
  ∃ w' l subset,
    dashboard numpy.argsort_quicksort 0%nat (world_with_frame scenario)
    = (Ok tt, w')
    ∧ heap (world_with_frame scenario) !! l = None
    ∧ heap w' !! l = Some (DataFrame subset)
    ∧ map_markers (displayed (world_with_frame scenario) w')
      = Some (row_marker <$> subset)
    ∧ Forall located_and_valued subset
    ∧ (∀ r, r ∈ scenario → located_and_valued r → r ∈ subset)
    ∧ subset `sublist_of` scenario
    ∧ subset = filter located_and_valued scenario.
Proof.
  apply (map_subset numpy.argsort_quicksort
           (world_with_frame scenario) 0%nat scenario).
  reflexivity.
Defined.

(** ** The loaded table during a pass *)

(** C9: within a pass no operation mutates the loaded table.  After the
    KPIs, the map subset, the state ranking and the raw table, the object
    of the loaded table holds the same rows, as does every other object
    and the cache; the map subset and the state ranking are new objects,
    and the raw table shown is the loaded one. *)
Theorem loaded_table_unchanged argsort w df t :
  heap w !! df = Some (DataFrame t) →
  ∃ w' l_map l_ranking,
    dashboard argsort df w = (Ok tt, w')
    ∧ heap w' !! df = Some (DataFrame t)
    ∧ heap w ⊆ heap w'
    ∧ data_cache w' = data_cache w
    ∧ files w' = files w
    ∧ heap w !! l_map = None
    ∧ heap w' !! l_map = Some (DataFrame (df_map t))
    ∧ heap w !! l_ranking = None
    ∧ heap w' !! l_ranking = Some (StateFrame (value_by_state argsort t))
    ∧ raw_table (displayed w w') = (if show_raw_data w then Some t else None).
Proof.
  intros Hdf.
  pose proof (preserves_dashboard argsort df w) as [Hheap _].
  rewrite (dashboard_run _ _ _ _ Hdf) in Hheap.
  eexists _, (fresh (dom (heap w))),
    (fresh (dom (<[fresh (dom (heap w)) := DataFrame (df_map t)]> (heap w)))).
  split; [by apply dashboard_run|].
  split; [by eapply lookup_weaken|].
  split; [done|]. do 2 (split; [done|]).
  split; [apply not_elem_of_dom, is_fresh|].
  split.
  { cbn. unfold dashboard_heap.
    do 2 apply lookup_insert_fresh. apply lookup_insert_eq. }
  split.
  { apply eq_None_not_Some. intros [o Ho].
    apply (is_fresh
             (dom (<[fresh (dom (heap w)) := DataFrame (df_map t)]> (heap w)))).
    apply elem_of_dom. exists o.
    by eapply lookup_weaken; [|apply alloc_extends]. }
  split.
  { cbn. unfold dashboard_heap.
    apply lookup_insert_fresh. apply lookup_insert_eq. }
  rewrite displayed_dashboard. by destruct (show_raw_data w).
Qed.

(** C9 on the scenario, with the checkbox ticked. *)
Lemma loaded_table_unchanged_witness :
  ∃ w' l_map l_ranking,
    dashboard numpy.argsort_quicksort 0%nat (world_with_frame scenario)
    = (Ok tt, w')
    ∧ heap w' !! 0%nat = Some (DataFrame scenario)
    ∧ heap (world_with_frame scenario) ⊆ heap w'
    ∧ data_cache w' = data_cache (world_with_frame scenario)
    ∧ files w' = files (world_with_frame scenario)
    ∧ heap (world_with_frame scenario) !! l_map = None
    ∧ heap w' !! l_map = Some (DataFrame (df_map scenario))
    ∧ heap (world_with_frame scenario) !! l_ranking = None
    ∧ heap w' !! l_ranking
      = Some (StateFrame (value_by_state numpy.argsort_quicksort scenario))
    ∧ raw_table (displayed (world_with_frame scenario) w') = Some scenario.
Proof.
  apply (loaded_table_unchanged numpy.argsort_quicksort
           (world_with_frame scenario) 0%nat scenario).
  reflexivity.
Defined.

(** ** The state ranking *)





(** The scenario of the specification, from the file to the page: three
    assets, 350 in total, two with a valuation, markers for the first and
    the third, TX before CA. *)
Example scenario_page :
  displayed (world_with_file scenario)
    (render numpy.argsort_quicksort (world_with_file scenario)).2
  = PageConfig "wide"
    :: dashboard_page numpy.argsort_quicksort scenario false
  ∧ metric "Total Assets" (dashboard_page numpy.argsort_quicksort scenario false)
    = Some 3
  ∧ metric "Total Estimated Value"
      (dashboard_page numpy.argsort_quicksort scenario false)
    = Some 350
  ∧ metric "Assets with Valuation"
      (dashboard_page numpy.argsort_quicksort scenario false)
    = Some 2
  ∧ popup_name <$> default []
      (map_markers (dashboard_page numpy.argsort_quicksort scenario false))
    = ["Asset 1"; "Asset 3"]
  ∧ chart_bars (dashboard_page numpy.argsort_quicksort scenario false)
    = Some [("TX", 200); ("CA", 150)].
Proof. by vm_compute. Qed.

(** ** A missing file *)

Lemma not_found_message_mentions filepath :
  mentions (not_found_message filepath) filepath.
Proof. by eexists _, _. Qed.

(** A call of [load_data] on a path that does not exist and for which no
    table is cached. *)
Lemma load_data_not_found filepath w :
  files w !! filepath = None →
  (∀ entry, data_cache w !! filepath = Some entry →
            entry = CachedResult None [Error (not_found_message filepath)]) →
  ∃ w1, load_data filepath w = (Ok None, w1)
        ∧ page w1 = page w ++ [Error (not_found_message filepath)]
        ∧ heap w1 = heap w.
Proof.
  intros Hfile Hcache.
  destruct (data_cache w !! filepath) as [entry|] eqn:Hc.
  - rewrite (load_data_hit _ _ _ Hc), (Hcache entry eq_refl). by eexists.
  - rewrite (load_data_miss_not_found _ _ Hc Hfile). by eexists.
Qed.

(** C2, amended: for every path that does not exist and for which the
    cache holds no table (no entry, or the entry of an earlier failed
    load), the loader displays an error message naming the path and
    returns [None] without raising, and the pass displays no KPI, map,
    chart or table and computes no frame. *)
Theorem missing_file argsort filepath w :
  files w !! filepath = None →
  (∀ entry, data_cache w !! filepath = Some entry →
            entry = CachedResult None [Error (not_found_message filepath)]) →
  ∃ w1 w',
    load_data filepath w = (Ok None, w1)
    ∧ displayed w w1 = [Error (not_found_message filepath)]
    ∧ mentions (not_found_message filepath) filepath
    ∧ app_on argsort filepath w = (Ok tt, w')
    ∧ displayed w w'
      = [PageConfig "wide"; Error (not_found_message filepath)]
    ∧ Forall (λ e, is_dashboard_output e = false) (displayed w w')
    ∧ heap w' = heap w.
Proof.
  intros Hfile Hcache.
  destruct (load_data_not_found filepath w Hfile Hcache)
    as (w1 & Hrun & Hpage & Hheap).
  destruct (load_data_not_found filepath
              (set_page (page w ++ [PageConfig "wide"]) w) Hfile Hcache)
    as (w' & Hrun' & Hpage' & Hheap').
  exists w1, w'. split; [done|].
  split; [unfold displayed; rewrite Hpage; apply drop_app_length|].
  split; [apply not_found_message_mentions|].
  assert (displayed w w'
          = [PageConfig "wide"; Error (not_found_message filepath)]) as Hshown.
  { unfold displayed. rewrite Hpage'. cbn [page set_page].
    rewrite <- app_assoc. apply drop_app_length. }
  split.
  { unfold app_on. eapply bind_run_eq; [apply emit_run|].
    eapply bind_run_eq; [exact Hrun'|]. done. }
  split; [done|]. split; [|done].
  rewrite Hshown. by repeat constructor.
Qed.

(** C2 on a path that is not on disk. *)
Lemma missing_file_witness :
  ∃ w1 w',
    load_data "missing.csv" (world_with_file scenario) = (Ok None, w1)
    ∧ displayed (world_with_file scenario) w1
      = [Error (not_found_message "missing.csv")]
    ∧ mentions (not_found_message "missing.csv") "missing.csv"
    ∧ app_on numpy.argsort_quicksort "missing.csv" (world_with_file scenario)
      = (Ok tt, w')
    ∧ displayed (world_with_file scenario) w'
      = [PageConfig "wide"; Error (not_found_message "missing.csv")]
    ∧ Forall (λ e, is_dashboard_output e = false)
        (displayed (world_with_file scenario) w')
    ∧ heap w' = heap (world_with_file scenario).
Proof.
  apply (missing_file numpy.argsort_quicksort "missing.csv"
           (world_with_file scenario)).
  - by vm_compute.
  - intros entry. by vm_compute.
Defined.

(** C2, as stated, fails once a table is cached: after the file is
    deleted the path does not exist, and the next pass shows no error but
    the KPIs and the chart of the cached table. *)
Lemma cached_table_outlives_file :
  files world_file_deleted !! DATA_FILE = None
  ∧ error_messages (page (render numpy.argsort_quicksort world_file_deleted).2)
    = []
  ∧ metric "Total Assets"
      (page (render numpy.argsort_quicksort world_file_deleted).2)
    = Some 3
  ∧ chart_bars (page (render numpy.argsort_quicksort world_file_deleted).2)
    = Some [("TX", 200); ("CA", 150)].
Proof. by vm_compute. Qed.

(** ** The cache *)

(** C8, amended: after a call of the loader, later calls with the same
    path in the session do not read the file again and return the table
    (or [None]) of the first call, whatever passes, calls and changes of
    the files came in between; the entry of the path is still the one the
    first call left: the cache is keyed by the path and nothing
    invalidates it, not even a change of the file. *)
Theorem load_data_cached argsort filepath w w2 :
  rtc (session_step argsort) (load_data filepath w).2 w2 →
  ∃ v1 v2,
    (load_data filepath w).1 = Ok v1
    ∧ (load_data filepath w2).1 = Ok v2
    ∧ (v2 ≫= λ l, heap (load_data filepath w2).2 !! l)
      = (v1 ≫= λ l, heap (load_data filepath w).2 !! l)
    ∧ read_csv_calls (load_data filepath w2).2 = read_csv_calls w2
    ∧ data_cache (load_data filepath w2).2 !! filepath
      = data_cache (load_data filepath w).2 !! filepath.
Proof.
  intros Hsession.
  destruct (load_data_returns filepath w) as (v1 & entry & Hv1 & Hentry & Hval).
  pose proof (session_data_cache _ _ _ _ _ Hsession Hentry) as Hentry2.
  exists v1. rewrite (load_data_hit _ _ _ Hentry2), Hentry, <- Hval.
  destruct (cached_value entry) as [o|]; cbn.
  - eexists. do 2 (split; [done|]). cbn. by rewrite lookup_insert_eq.
  - by eexists.
Qed.

(** C8, amended, at work: a call of the loader, then a pass, a click and
    the deletion of the file, then another call. *)
Lemma load_data_cached_witness :
  ∃ v1 v2,
    (load_data DATA_FILE (world_with_file scenario)).1 = Ok v1
    ∧ (load_data DATA_FILE world_later).1 = Ok v2
    ∧ (v2 ≫= λ l, heap (load_data DATA_FILE world_later).2 !! l)
      = (v1 ≫= λ l, heap world_loaded !! l)
    ∧ read_csv_calls (load_data DATA_FILE world_later).2
      = read_csv_calls world_later
    ∧ data_cache (load_data DATA_FILE world_later).2 !! DATA_FILE
      = data_cache world_loaded !! DATA_FILE.
Proof.
  apply (load_data_cached numpy.argsort_quicksort DATA_FILE
           (world_with_file scenario) world_later).
  eapply rtc_l; [apply step_render|].
  eapply rtc_l; [apply step_checkbox|].
  apply rtc_once, step_files.
Defined.

(** C8, as stated, fails when the file changes: the file is loaded, then
    rewritten on disk to hold one asset; the next call of the loader does
    not read it ([pd.read_csv] was called once, by the first load) and
    returns the three assets of the first load, the next pass shows their
    KPIs, and the entry of the cache is the one of the first load. *)
Lemma rewritten_file_not_reloaded :
  files world_file_rewritten !! DATA_FILE = Some [valued_asset]
  ∧ read_csv_calls world_file_rewritten = [DATA_FILE]
  ∧ read_csv_calls (load_data DATA_FILE world_file_rewritten).2 = [DATA_FILE]
  ∧ (∃ df,
       (load_data DATA_FILE world_file_rewritten).1 = Ok (Some df)
       ∧ heap (load_data DATA_FILE world_file_rewritten).2 !! df
         = Some (DataFrame scenario))
  ∧ data_cache (load_data DATA_FILE world_file_rewritten).2 !! DATA_FILE
    = data_cache world_loaded !! DATA_FILE
  ∧ metric "Total Assets"
      (page (render numpy.argsort_quicksort world_file_rewritten).2)
    = Some 3
  ∧ read_csv_calls (render numpy.argsort_quicksort world_file_rewritten).2
    = [DATA_FILE].
Proof.
  split_and!; try by vm_compute.
  eexists. split; by vm_compute.
Qed.

(** * Further properties *)

(** ** The groups of the ranking *)

Lemma total_value_cons r t :
  total_value (r :: t) = default 0 (Estimated_Asset_Value_USD r) + total_value t.
Proof. unfold total_value. by rewrite fmap_cons, Series_sum_cons. Qed.

(** A state whose rows all lack a value sums to zero. *)
Lemma total_value_all_absent t :
  Forall (λ r, Estimated_Asset_Value_USD r = None) t → total_value t = 0.
Proof.
  induction 1 as [|r t Hr _ IH]; [done|].
  by rewrite total_value_cons, Hr, IH.
Qed.

(** X4: the groups of [groupby('State')] are the states that occur in the
    table, each once and in ascending order of the state code; a row
    without a state is in no group, and a state whose rows all lack a
    value is still a group, with sum 0. *)
Theorem groups_are_states t :
  Sorted str_le (groupby_State_sum t).*1
  ∧ NoDup (groupby_State_sum t).*1
  ∧ (∀ s, s ∈ (groupby_State_sum t).*1 ↔ ∃ r, r ∈ t ∧ State r = Some s)
  ∧ (∀ s v, (s, v) ∈ groupby_State_sum t →
       (∀ r, r ∈ t → State r = Some s → Estimated_Asset_Value_USD r = None) →
       v = 0).
Proof.
  split; [apply groupby_State_sum_sorted|].
  split; [apply groupby_State_sum_NoDup|].
  split; [apply groupby_State_sum_elem_of|].
  intros s v Hin Habsent.
  rewrite (groupby_State_sum_entry _ _ _ Hin).
  apply total_value_all_absent, Forall_forall.
  intros r [Hs Hr]%list_elem_of_filter. by apply Habsent.
Qed.

(** The sums of the groups as a function of their states. *)
Lemma groupby_State_sum_values t :
  (groupby_State_sum t).*2
  = (λ s, total_value (filter (λ r, State r = Some s) t))
    <$> (groupby_State_sum t).*1.
Proof.
  pose proof (groupby_State_sum_entry t) as Hentry.
  induction (groupby_State_sum t) as [|[s v] groups IH]; [done|].
  cbn. f_equal.
  - apply Hentry. left.
  - apply IH. intros s' v' Hin. apply Hentry. by right.
Qed.

(** The rows of the states [keys], a state at a time. *)
Lemma total_value_by_state keys t :
  NoDup keys →
  foldr Z.add 0
    ((λ s, total_value (filter (λ r, State r = Some s) t)) <$> keys)
  = total_value (filter (λ r, State r ∈ Some <$> keys) t).
Proof.
  intros Hnd. induction t as [|r t IH].
  - cbn. induction keys as [|k keys IHk]; [done|].
    cbn. rewrite IHk by by inv Hnd. done.
  - rewrite (filter_cons (λ r, State r ∈ Some <$> keys)).
    assert (foldr Z.add 0
              ((λ s, total_value (filter (λ r, State r = Some s) (r :: t)))
               <$> keys)
            = (if decide (State r ∈ Some <$> keys)
               then default 0 (Estimated_Asset_Value_USD r) else 0)
              + foldr Z.add 0
                  ((λ s, total_value (filter (λ r, State r = Some s) t))
                   <$> keys)) as ->.
    { clear IH. induction Hnd as [|k keys Hk Hnd IHk].
      - cbn. by rewrite decide_False by apply not_elem_of_nil.
      - cbn [fmap list_fmap foldr]. rewrite IHk, filter_cons.
        destruct (decide (State r = Some k)) as [Hrk|Hrk].
        + rewrite total_value_cons.
          rewrite (decide_True (P := State r ∈ Some k :: _))
            by (rewrite Hrk; left).
          rewrite (decide_False (P := State r ∈ Some <$> keys)); [lia|].
          rewrite Hrk. by intros (s & [= ->] & Hs)%list_elem_of_fmap.
        + destruct (decide (State r ∈ Some <$> keys)) as [Hin|Hno].
          * rewrite decide_True by by right. lia.
          * rewrite decide_False; [lia|].
            by intros [?|?]%elem_of_cons. }
    rewrite IH.
    destruct (decide (State r ∈ Some <$> keys));
      [by rewrite total_value_cons|lia].
Qed.

Lemma filter_ext_in {A} (P Q : A → Prop) `{∀ x, Decision (P x)}
    `{∀ x, Decision (Q x)} (l : list A) :
  (∀ x, x ∈ l → P x ↔ Q x) → filter P l = filter Q l.
Proof.
  induction l as [|x l IH]; intros HPQ; [done|].
  rewrite !filter_cons, IH by (intros y Hy; apply HPQ; by right).
  destruct (decide (P x)) as [HP|HP], (decide (Q x)) as [HQ|HQ]; try done.
  - destruct HQ. apply HPQ; [left|done].
  - destruct HP. apply HPQ; [left|done].
Qed.

(** The group sums add up to the value of the rows that have a state. *)
Lemma groupby_State_sum_total t :
  foldr Z.add 0 (groupby_State_sum t).*2
  = total_value (filter (λ r, is_Some (State r)) t).
Proof.
  rewrite groupby_State_sum_values.
  rewrite total_value_by_state by apply groupby_State_sum_NoDup.
  f_equal. apply filter_ext_in. intros r Hr. split.
  - intros (s & -> & _)%list_elem_of_fmap. by eexists.
  - intros [s Hs]. rewrite Hs. apply list_elem_of_fmap_2.
    apply groupby_State_sum_elem_of. by exists r.
Qed.

(** ** The chart as the top of the ranking *)

Lemma foldr_Zadd_Permutation (l1 l2 : list Z) :
  l1 ≡ₚ l2 → foldr Z.add 0 l1 = foldr Z.add 0 l2.
Proof. induction 1; cbn; lia. Qed.

(** X2: the chart shows the top of the ranking.  When numpy's [argsort]
    sorts the group sums at hand, no state left out of the chart has a
    larger sum than a state in it, the chart holds 10 states or all of
    them, and with at most 10 states it holds every group. *)
Theorem chart_is_top argsort w df t :
  heap w !! df = Some (DataFrame t) →
  argsort_sorts (reverse (groupby_State_sum t).*2)
    (argsort (reverse (groupby_State_sum t).*2)) →
  ∃ w' bars,
    dashboard argsort df w = (Ok tt, w')
    ∧ chart_bars (displayed w w') = Some bars
    ∧ length bars = (10 `min` length (groupby_State_sum t))%nat
    ∧ (∀ s v s' v',
         (s, v) ∈ bars → (s', v') ∈ groupby_State_sum t → s' ∉ bars.*1 →
         v' ≤ v)
    ∧ ((length (groupby_State_sum t) ≤ 10)%nat →
       bars ≡ₚ groupby_State_sum t).
Proof.
  intros Hdf Hsort. eexists _, (head 10 (value_by_state argsort t)).
  split; [by apply dashboard_run|].
  rewrite displayed_dashboard. split; [done|].
  pose proof (sort_values_descending_Permutation _ _ Hsort) as Hperm.
  pose proof (sort_values_descending_sorted _ _ Hsort) as Hdesc.
  unfold head, value_by_state in *. split; [|split].
  - by rewrite length_take, Hperm.
  - intros s v s' v' Hin Hgroup Hout.
    rewrite <- Hperm in Hgroup.
    rewrite <- (take_drop 10 (sort_values_descending _ _)) in Hgroup, Hdesc.
    apply elem_of_app in Hgroup as [Htop|Hrest].
    + destruct Hout. apply list_elem_of_fmap. by exists (s', v').
    + apply StronglySorted_app in Hdesc as (Hcross & _ & _).
      apply (Hcross (s, v) (s', v')); done.
  - intros Hlen. rewrite take_ge; [done|]. by rewrite Hperm.
Qed.

(** X2 on the scenario, with numpy's quicksort. *)
Lemma chart_is_top_witness :
  ∃ w' bars,
    dashboard numpy.argsort_quicksort 0%nat (world_with_frame scenario)
    = (Ok tt, w')
    ∧ chart_bars (displayed (world_with_frame scenario) w') = Some bars
    ∧ length bars = (10 `min` length (groupby_State_sum scenario))%nat
    ∧ (∀ s v s' v',
         (s, v) ∈ bars → (s', v') ∈ groupby_State_sum scenario →
         s' ∉ bars.*1 → v' ≤ v)
    ∧ ((length (groupby_State_sum scenario) ≤ 10)%nat →
       bars ≡ₚ groupby_State_sum scenario).
Proof.
  apply (chart_is_top numpy.argsort_quicksort
           (world_with_frame scenario) 0%nat scenario).
  - reflexivity.
  - apply (bool_decide_unpack _). by vm_compute.
Defined.

Lemma filter_Forall_id {A} (P : A → Prop) `{∀ x, Decision (P x)} (l : list A) :
  Forall P l → filter P l = l.
Proof.
  induction 1 as [|x l Hx _ IH]; [done|].
  by rewrite filter_cons, decide_True, IH.
Qed.

(** X3: on a table whose amounts are summed exactly and that has at most
    10 states, the bars of the chart add up to the value of the rows that
    have a state; when every row has a state they add up to the Total
    Estimated Value KPI. *)
Theorem bars_add_up argsort w df t :
  heap w !! df = Some (DataFrame t) →
  exactly_summable t →
  argsort_sorts (reverse (groupby_State_sum t).*2)
    (argsort (reverse (groupby_State_sum t).*2)) →
  (length (groupby_State_sum t) ≤ 10)%nat →
  ∃ w' bars,
    dashboard argsort df w = (Ok tt, w')
    ∧ chart_bars (displayed w w') = Some bars
    ∧ foldr Z.add 0 bars.*2
      = total_value (filter (λ r, is_Some (State r)) t)
    ∧ (Forall (λ r, is_Some (State r)) t →
       metric "Total Estimated Value" (displayed w w')
       = Some (foldr Z.add 0 bars.*2)).
Proof.
  intros Hdf _ Hsort Hlen. eexists _, (head 10 (value_by_state argsort t)).
  split; [by apply dashboard_run|].
  rewrite displayed_dashboard. split; [done|].
  pose proof (sort_values_descending_Permutation _ _ Hsort) as Hperm.
  assert (foldr Z.add 0 (head 10 (value_by_state argsort t)).*2
          = total_value (filter (λ r, is_Some (State r)) t)) as Hsum.
  { unfold head, value_by_state. rewrite take_ge by by rewrite Hperm.
    rewrite <- groupby_State_sum_total.
    apply foldr_Zadd_Permutation. by rewrite Hperm. }
  split; [done|]. intros Hall. rewrite Hsum.
  by rewrite filter_Forall_id.
Qed.

(** X3 on the scenario: 200 + 150 = 350. *)
Lemma bars_add_up_witness :
  ∃ w' bars,
    dashboard numpy.argsort_quicksort 0%nat (world_with_frame scenario)
    = (Ok tt, w')
    ∧ chart_bars (displayed (world_with_frame scenario) w') = Some bars
    ∧ foldr Z.add 0 bars.*2 = 350
    ∧ (Forall (λ r, is_Some (State r)) scenario →
       metric "Total Estimated Value"
         (displayed (world_with_frame scenario) w')
       = Some (foldr Z.add 0 bars.*2)).
Proof.
  apply (bars_add_up numpy.argsort_quicksort
           (world_with_frame scenario) 0%nat scenario).
  - reflexivity.
  - unfold exactly_summable. simpl. lia.
  - apply (bool_decide_unpack _). by vm_compute.
  - vm_compute. lia.
Defined.

(** ** The markers of the map *)

(** X1: the map gets one marker for each row that has latitude, longitude
    and value, in the order of the table, so at most one per asset; every
    marker carries its coordinates and its value (no missing cell reaches
    folium), and is labelled with the name of its row. *)
Theorem markers_of_map argsort w df t :
  heap w !! df = Some (DataFrame t) →
  ∃ w' markers,
    dashboard argsort df w = (Ok tt, w')
    ∧ map_markers (displayed w w') = Some markers
    ∧ length markers = length (filter located_and_valued t)
    ∧ (length markers ≤ length t)%nat
    ∧ Forall marker_complete markers
    ∧ tooltip <$> markers
      = Real_Property_Asset_Name <$> filter located_and_valued t
    ∧ popup_name <$> markers = tooltip <$> markers.
Proof.
  intros Hdf. eexists _, (row_marker <$> df_map t).
  split; [by apply dashboard_run|].
  rewrite displayed_dashboard. split; [done|].
  rewrite df_map_filter, length_fmap.
  split; [done|]. split; [apply length_filter|].
  split; [|split].
  - apply Forall_fmap, Forall_forall.
    by intros r [Hr _]%list_elem_of_filter.
  - by rewrite <- list_fmap_compose.
  - by rewrite <- !list_fmap_compose.
Qed.

(** X1 on the scenario: markers for the first and the third asset. *)
Lemma markers_of_map_witness :
  ∃ w' markers,
    dashboard numpy.argsort_quicksort 0%nat (world_with_frame scenario)
    = (Ok tt, w')
    ∧ map_markers (displayed (world_with_frame scenario) w') = Some markers
    ∧ length markers = 2%nat
    ∧ (length markers ≤ 3)%nat
    ∧ Forall marker_complete markers
    ∧ tooltip <$> markers = ["Asset 1"; "Asset 3"]
    ∧ popup_name <$> markers = tooltip <$> markers.
Proof.
  apply (markers_of_map numpy.argsort_quicksort
           (world_with_frame scenario) 0%nat scenario).
  reflexivity.
Defined.

(** ** The checkbox *)

(** X8: the checkbox decides one thing only.  Ticked, the pass displays
    what it displays unticked, followed by the loaded table in full;
    unticked, no table is displayed.  The frames computed are the same. *)
Theorem checkbox_adds_table argsort w df t :
  heap w !! df = Some (DataFrame t) →
  ∃ w_off w_on,
    dashboard argsort df (set_show_raw_data false w) = (Ok tt, w_off)
    ∧ dashboard argsort df (set_show_raw_data true w) = (Ok tt, w_on)
    ∧ displayed w w_on = displayed w w_off ++ [Dataframe t]
    ∧ raw_table (displayed w w_off) = None
    ∧ heap w_on = heap w_off.
Proof.
  intros Hdf. eexists _, _.
  split; [by apply dashboard_run|]. split; [by apply dashboard_run|].
  unfold displayed. cbn [page set_page set_heap set_show_raw_data
                          show_raw_data heap].
  rewrite !drop_app_length. done.
Qed.

(** X8 on the scenario. *)
Lemma checkbox_adds_table_witness :
  ∃ w_off w_on,
    dashboard numpy.argsort_quicksort 0%nat
      (set_show_raw_data false (world_with_frame scenario)) = (Ok tt, w_off)
    ∧ dashboard numpy.argsort_quicksort 0%nat
        (set_show_raw_data true (world_with_frame scenario)) = (Ok tt, w_on)
    ∧ displayed (world_with_frame scenario) w_on
      = displayed (world_with_frame scenario) w_off ++ [Dataframe scenario]
    ∧ raw_table (displayed (world_with_frame scenario) w_off) = None
    ∧ heap w_on = heap w_off.
Proof.
  apply (checkbox_adds_table numpy.argsort_quicksort
           (world_with_frame scenario) 0%nat scenario).
  reflexivity.
Defined.

(** ** An empty table *)

Lemma gather_nil {A} indexer : gather (@nil A) indexer = [].
Proof. induction indexer as [|i p IH]; [done|]. by rewrite gather_cons. Qed.

(** X9: a file with a header and no rows gives a pass that runs to its
    end, whatever [argsort] does: the three KPIs are 0, the map has no
    marker and the chart no bar. *)
Theorem empty_table argsort w df :
  heap w !! df = Some (DataFrame []) →
  ∃ w',
    dashboard argsort df w = (Ok tt, w')
    ∧ metric "Total Assets" (displayed w w') = Some 0
    ∧ metric "Total Estimated Value" (displayed w w') = Some 0
    ∧ metric "Assets with Valuation" (displayed w w') = Some 0
    ∧ map_markers (displayed w w') = Some []
    ∧ chart_bars (displayed w w') = Some [].
Proof.
  intros Hdf. eexists. split; [by apply dashboard_run|].
  rewrite displayed_dashboard. do 4 (split; [done|]).
  change (chart_bars (dashboard_page argsort [] (show_raw_data w)))
    with (Some (head 10 (value_by_state argsort []))).
  unfold value_by_state, sort_values_descending.
  change (groupby_State_sum []) with (@nil (string * Z)).
  by rewrite gather_nil.
Qed.

(** X9 in a world whose table is empty. *)
Lemma empty_table_witness :
  ∃ w',
    dashboard numpy.argsort_quicksort 0%nat (world_with_frame []) = (Ok tt, w')
    ∧ metric "Total Assets" (displayed (world_with_frame []) w') = Some 0
    ∧ metric "Total Estimated Value" (displayed (world_with_frame []) w')
      = Some 0
    ∧ metric "Assets with Valuation" (displayed (world_with_frame []) w')
      = Some 0
    ∧ map_markers (displayed (world_with_frame []) w') = Some []
    ∧ chart_bars (displayed (world_with_frame []) w') = Some [].
Proof.
  apply (empty_table numpy.argsort_quicksort (world_with_frame []) 0%nat).
  reflexivity.
Defined.

(** ** A first load *)

(** X5: the first call of the loader for a file that exists reads it once
    and returns a new frame holding the rows of the file in their order;
    it displays nothing and leaves the table in the cache under the
    path. *)
Theorem load_data_found filepath rows w :
  data_cache w !! filepath = None →
  files w !! filepath = Some rows →
  ∃ df w1,
    load_data filepath w = (Ok (Some df), w1)
    ∧ heap w !! df = None
    ∧ heap w1 !! df = Some (DataFrame rows)
    ∧ displayed w w1 = []
    ∧ read_csv_calls w1 = read_csv_calls w ++ [filepath]
    ∧ data_cache w1 !! filepath
      = Some (CachedResult (Some (DataFrame rows)) []).
Proof.
  intros Hc Hf. eexists _, _.
  split; [by apply load_data_miss_found|].
  split; [apply not_elem_of_dom, is_fresh|].
  split; [apply lookup_insert_eq|].
  split; [apply drop_all|].
  split; [done|apply lookup_insert_eq].
Qed.

(** X5 on the scenario in a fresh process. *)
Lemma load_data_found_witness :
  ∃ df w1,
    load_data DATA_FILE (world_with_file scenario) = (Ok (Some df), w1)
    ∧ heap (world_with_file scenario) !! df = None
    ∧ heap w1 !! df = Some (DataFrame scenario)
    ∧ displayed (world_with_file scenario) w1 = []
    ∧ read_csv_calls w1 = [DATA_FILE]
    ∧ data_cache w1 !! DATA_FILE
      = Some (CachedResult (Some (DataFrame scenario)) []).
Proof.
  apply (load_data_found DATA_FILE scenario (world_with_file scenario)).
  - reflexivity.
  - by vm_compute.
Defined.

(** ** What a pass leaves alone *)

Lemma keeps_ret {A B} (c : world → B) (a : A) : keeps c (mret a).
Proof. by intros w. Qed.

Lemma keeps_bind {A A' B} (c : world → B) (m : M A) (f : A → M A') :
  keeps c m → (∀ a, keeps c (f a)) → keeps c (m ≫= f).
Proof.
  intros Hm Hf w. specialize (Hm w). unfold mbind, M_bind.
  destruct (m w) as [[a|e] w']; [|done]. cbn in Hm. by rewrite Hf.
Qed.

Lemma keeps_emit e : keeps session_state (emit e).
Proof. by intros w. Qed.

Lemma keeps_alloc o : keeps session_state (alloc o).
Proof. by intros w. Qed.

Lemma keeps_read_DataFrame df : keeps session_state (read_DataFrame df).
Proof. intros w. unfold read_DataFrame. by destruct (heap w !! df) as [[]|]. Qed.

Lemma keeps_read_StateFrame sf : keeps session_state (read_StateFrame sf).
Proof. intros w. unfold read_StateFrame. by destruct (heap w !! sf) as [[]|]. Qed.

Lemma keeps_st_checkbox label : keeps session_state (st_checkbox label).
Proof. by intros w. Qed.

(** The pass over a table, whether it ends or raises. *)
Lemma keeps_dashboard argsort df : keeps session_state (dashboard argsort df).
Proof.
  unfold dashboard, DataFrame_eval, DataFrame_derive, StateFrame_head.
  repeat first
    [ apply keeps_emit | apply keeps_alloc | apply keeps_ret
    | apply keeps_read_DataFrame | apply keeps_read_StateFrame
    | apply keeps_st_checkbox
    | apply keeps_bind; [|intros ?]
    | match goal with |- keeps _ (if ?b then _ else _) => destruct b end ].
Qed.

(** What the loader does to the files and to the calls of [read_csv]. *)
Lemma load_data_reads filepath w :
  files (load_data filepath w).2 = files w
  ∧ show_raw_data (load_data filepath w).2 = show_raw_data w
  ∧ read_csv_calls (load_data filepath w).2
    = read_csv_calls w
      ++ match data_cache w !! filepath with
         | Some _ => []
         | None => [filepath]
         end.
Proof.
  destruct (data_cache w !! filepath) as [entry|] eqn:Hc.
  - rewrite (load_data_hit _ _ _ Hc), app_nil_r.
    by destruct (cached_value entry).
  - destruct (files w !! filepath) as [rows|] eqn:Hf.
    + by rewrite (load_data_miss_found _ _ _ Hc Hf).
    + by rewrite (load_data_miss_not_found _ _ Hc Hf).
Qed.

(** X7: a render pass, in any world, calls [pd.read_csv] at most once,
    with the path of the data file, and not at all when the cache holds an
    entry for it; it reads no other file, changes no file and leaves the
    checkbox as the user set it. *)
Theorem render_reads argsort w :
  files (render argsort w).2 = files w
  ∧ show_raw_data (render argsort w).2 = show_raw_data w
  ∧ read_csv_calls (render argsort w).2
    = read_csv_calls w
      ++ match data_cache w !! DATA_FILE with
         | Some _ => []
         | None => [DATA_FILE]
         end.
Proof.
  unfold render, app, app_on.
  erewrite bind_run; [|apply emit_run].
  pose proof (load_data_reads DATA_FILE
                (set_page (page (set_page [] w) ++ [PageConfig "wide"])
                   (set_page [] w))) as Hload.
  unfold mbind, M_bind.
  destruct (load_data DATA_FILE _) as [[[df|]|e] w1]; cbn in Hload; try done.
  pose proof (keeps_dashboard argsort df w1) as Hkeep.
  unfold session_state in Hkeep.
  destruct (dashboard argsort df w1) as [r w2].
  cbn in Hkeep |- *. destruct Hload as (<- & <- & <-). by simplify_eq.
Qed.

(** ** Later passes of a session *)

(** What the first pass of a session leaves in the cache. *)
Lemma render_caches argsort w :
  data_cache w !! DATA_FILE = None →
  data_cache (render argsort w).2 !! DATA_FILE
  = Some match files w !! DATA_FILE with
         | Some rows => CachedResult (Some (DataFrame rows)) []
         | None => CachedResult None [Error (not_found_message DATA_FILE)]
         end.
Proof.
  intros Hc. unfold render, app.
  destruct (files w !! DATA_FILE) as [rows|] eqn:Hf.
  - erewrite app_on_loaded;
      [|apply load_data_miss_found; [exact Hc|exact Hf]].
    rewrite (dashboard_run _ _ rows) by apply lookup_insert_eq.
    apply lookup_insert_eq.
  - unfold app_on. erewrite bind_run; [|apply emit_run].
    erewrite bind_run;
      [|apply load_data_miss_not_found; [exact Hc|exact Hf]].
    apply lookup_insert_eq.
Qed.

(** A pass that finds the record of a failed load. *)
Lemma app_on_cached_None argsort filepath messages w :
  data_cache w !! filepath = Some (CachedResult None messages) →
  app_on argsort filepath w
  = (Ok tt, set_page (page w ++ [PageConfig "wide"] ++ messages) w).
Proof.
  intros Hc. unfold app_on. erewrite bind_run; [|apply emit_run].
  erewrite bind_run;
    [|exact (load_data_hit filepath _
               (set_page (page w ++ [PageConfig "wide"]) w) Hc)].
  unfold mret, M_ret. destruct w. world_simpl. by rewrite <- app_assoc.
Qed.

(** X6: what the first pass of a session loaded is what every later pass
    shows.  After a first pass that found no entry in the cache, a pass
    later in the session displays the dashboard of the rows the file held
    at the first pass (with the table if the checkbox is ticked now), or
    the error message if the file was missing then, whatever became of the
    file since; it does not call [pd.read_csv]. *)
Theorem later_passes argsort w w2 :
  data_cache w !! DATA_FILE = None →
  rtc (session_step argsort) (render argsort w).2 w2 →
  ∃ w3,
    render argsort w2 = (Ok tt, w3)
    ∧ page w3
      = PageConfig "wide"
        :: match files w !! DATA_FILE with
           | Some rows => dashboard_page argsort rows (show_raw_data w2)
           | None => [Error (not_found_message DATA_FILE)]
           end
    ∧ read_csv_calls w3 = read_csv_calls w2.
Proof.
  intros Hc Hsession.
  pose proof (session_data_cache _ _ _ _ _ Hsession (render_caches argsort w Hc))
    as Hentry.
  unfold render, app.
  destruct (files w !! DATA_FILE) as [rows|].
  - destruct (app_on_cached argsort DATA_FILE rows [] (set_page [] w2) Hentry)
      as (w3 & Hrun & Hpage & Hcalls).
    exists w3. split; [done|]. split; [|done].
    unfold displayed in Hpage. by rewrite drop_0 in Hpage.
  - rewrite (app_on_cached_None argsort DATA_FILE _ (set_page [] w2) Hentry).
    by eexists.
Qed.

(** X6 when the file is there at the first pass and deleted afterwards. *)
Lemma later_passes_witness :
  ∃ w3,
    render numpy.argsort_quicksort
      (set_files ∅
         (render numpy.argsort_quicksort (world_with_file scenario)).2)
    = (Ok tt, w3)
    ∧ page w3
      = PageConfig "wide"
        :: dashboard_page numpy.argsort_quicksort scenario false
    ∧ read_csv_calls w3
      = read_csv_calls
          (set_files ∅
             (render numpy.argsort_quicksort (world_with_file scenario)).2).
Proof.
  apply (later_passes numpy.argsort_quicksort (world_with_file scenario)
           (set_files ∅
              (render numpy.argsort_quicksort (world_with_file scenario)).2)).
  - reflexivity.
  - apply rtc_once, step_files.
Defined.

(** ** The text of the count metrics *)

Lemma pretty_N_char_not_comma x : pretty_N_char x ≠ ","%char.
Proof. unfold pretty_N_char. by repeat case_match. Qed.

Lemma pretty_N_go_no_comma x s :
  Forall (λ c, c ≠ ","%char) (list_ascii_of_string s) →
  Forall (λ c, c ≠ ","%char) (list_ascii_of_string (pretty_N_go x s)).
Proof.
  revert s. induction (N.lt_wf_0 x) as [x _ IH]; intros s Hs.
  assert (x = 0 ∨ 0 < x)%N as [->|?] by lia.
  - by rewrite pretty_N_go_0.
  - rewrite pretty_N_go_step by done. apply IH.
    { by apply N.div_lt. }
    cbn. constructor; [apply pretty_N_char_not_comma|done].
Qed.

(** A numeral has no comma. *)
Lemma pretty_nat_no_comma (n : nat) :
  Forall (λ c, c ≠ ","%char) (list_ascii_of_string (pretty n)).
Proof.
  unfold pretty, pretty_nat, pretty, pretty_N.
  case_decide; [by repeat constructor|].
  apply pretty_N_go_no_comma. constructor.
Qed.

Lemma group_thousands_step a b c d more :
  group_thousands (a :: b :: c :: d :: more)
  = a :: b :: c :: ","%char :: group_thousands (d :: more).
Proof. done. Qed.

(** Deleting the commas undoes the grouping. *)
Lemma group_thousands_filter (l : list ascii) :
  Forall (λ c, c ≠ ","%char) l →
  filter (λ c, c ≠ ","%char) (group_thousands l) = l.
Proof.
  assert (∀ n (l : list ascii), (length l ≤ n)%nat →
            Forall (λ c, c ≠ ","%char) l →
            filter (λ c, c ≠ ","%char) (group_thousands l) = l) as Hall;
    [|by apply (Hall (length l))].
  clear l. induction n as [|n IH]; intros l Hlen Hl.
  { destruct l; [done|cbn in Hlen; lia]. }
  destruct l as [|a [|b [|c [|d more]]]];
    try (by apply filter_Forall_id).
  rewrite group_thousands_step.
  apply Forall_cons in Hl as [Ha Hl]. apply Forall_cons in Hl as [Hb Hl].
  apply Forall_cons in Hl as [Hc Hl].
  rewrite !filter_cons, !decide_True by done.
  rewrite decide_False by (by intros []).
  rewrite IH; [done| |done]. cbn in Hlen |- *. lia.
Qed.

(** X10: the text of a count metric ([f"{n:,}"], lines 50 and 52) reads
    back as the count: deleting its commas gives the decimal numeral of
    the count, so two counts are displayed alike only if they are equal. *)
Theorem format_thousands_reads_back (n : nat) :
  remove_commas (format_thousands n) = pretty n
  ∧ ∀ m : nat, format_thousands m = format_thousands n → m = n.
Proof.
  assert (∀ k : nat, remove_commas (format_thousands k) = pretty k) as Hback.
  { intros k. unfold remove_commas, format_thousands.
    rewrite list_ascii_of_string_of_list_ascii, filter_reverse.
    rewrite group_thousands_filter
      by (apply Forall_reverse, pretty_nat_no_comma).
    by rewrite reverse_involutive, string_of_list_ascii_of_string. }
  split; [done|]. intros m Hm.
  apply (inj pretty). by rewrite <- !Hback, Hm.
Qed.

(** The text for some counts. *)
Example format_thousands_examples :
  format_thousands 0 = "0" ∧ format_thousands 999 = "999"
  ∧ format_thousands 1000 = "1,000" ∧ format_thousands 4096 = "4,096".
Proof. by vm_compute. Qed.
